(** * vacationWX: the synthetic weather report and the location search

    A shallow embedding of the two flows of the repository:

    - [Generator]: [pseudoRandom] and [generateMockData] of
      [src/docs/index.tsx];
    - [Search]: the debounced autocomplete script with the selection-gated
      button handler (the first unnamed script), and the plain variant of
      the button handler (the second one).

    - [Render] and [App]: the style of the temperature bar and the state
      of the component [VacationWeather] ([handleGenerate], the disabled
      controls, the simulated latency);
    - [Notions] and [Traces]: what the further statements on the
      generator and on the runs of the autocomplete script are about.

    Conventions of the embedding.

    - A JavaScript string is the list of its UTF-16 code units.
    - Integers that JavaScript keeps in a double are integers of [Z]; the
      32-bit conversion of [<<] is written out ([ToInt32]).  The hash of a
      seed is such an integer as long as it stays below 2^53, which
      [hash_of_bound] gives for seeds of up to 2^21 code units.
    - The other doubles ([Math.sin] and what is computed from it) are real
      numbers: rounding is not modelled, [Math.sin] is [sin],
      [Math.floor] is [Zfloor].
    - Time is counted in integer milliseconds.
    - [Math.random()], [new Date()] and the Unicode case mapping belong to
      the host; the generator reads them from a [Host] record and counts
      its calls in a small state monad. *)

From Stdlib Require Import String Ascii.
From Stdlib Require Import ZArith List Bool Lia.
From Stdlib Require Import DecimalString.
From Stdlib Require DecimalFacts DecimalPos DecimalN Nnat.
From Stdlib Require Import Reals Lra.
Import ListNotations.

Local Open Scope Z_scope.

(** ** The JavaScript built-ins used by the code *)

Module JS.

(** A string value: its sequence of 16-bit code units. *)
Definition jsstring := list Z.

(** A string literal of the source (ASCII only). *)
Definition lit (s : string) : jsstring :=
  map (fun a => Z.of_N (N_of_ascii a)) (list_ascii_of_string s).

(** Every element is a 16-bit code unit. *)
Definition code_units (s : jsstring) : Prop :=
  Forall (fun c => 0 <= c < 65536) s.

(** [ToInt32] on an integral number: reduction modulo 2^32 into
    [-2^31, 2^31). *)
Definition ToInt32 (x : Z) : Z :=
  let m := x mod 4294967296 in
  if 2147483648 <=? m then m - 4294967296 else m.

(** [x << n] for integral [x]: both the operand and the result are
    converted to a signed 32-bit integer, the count is taken modulo 32. *)
Definition shl (x n : Z) : Z :=
  ToInt32 (Z.shiftl (ToInt32 x) (n mod 32)).

(** [ToString] of an integral number: its decimal digits, with a minus
    sign when negative. *)
Definition ToString (n : Z) : jsstring :=
  lit (NilZero.string_of_int (Z.to_int n)).

(** [s.padStart(n, '0')]. *)
Definition padStart0 (n : nat) (s : jsstring) : jsstring :=
  repeat 48 (n - List.length s) ++ s.

(** [a[k]] on an array: [undefined] (here [None]) outside the bounds. *)
Definition index {A : Type} (a : list A) (k : Z) : option A :=
  if k <? 0 then None else nth_error a (Z.to_nat k).

(** *** Dates

    A [Date] holds a time value in milliseconds.  [getDate] and [setDate]
    work on local time; the embedding measures time values in local time
    directly (a fixed offset to UTC), so that [LocalTime] and [UTC] are the
    identity.  The definitions follow the "Time Values and Time Range"
    clauses of ECMA-262. *)

Definition msPerDay : Z := 86400000.

Definition Day (t : Z) : Z := t / msPerDay.

Definition TimeWithinDay (t : Z) : Z := t mod msPerDay.

Definition DaysInYear (y : Z) : Z :=
  if negb (y mod 4 =? 0) then 365
  else if negb (y mod 100 =? 0) then 366
  else if negb (y mod 400 =? 0) then 365
  else 366.

Definition DayFromYear (y : Z) : Z :=
  365 * (y - 1970) + (y - 1969) / 4 - (y - 1901) / 100 + (y - 1601) / 400.

(** The year that contains day number [d]: the estimate from the mean
    length of a year is off by at most one. *)
Definition year_of_day (d : Z) : Z :=
  let y := 1970 + (400 * d) / 146097 in
  if d <? DayFromYear y then y - 1
  else if DayFromYear (y + 1) <=? d then y + 1
  else y.

Definition YearFromTime (t : Z) : Z := year_of_day (Day t).

Definition InLeapYear (t : Z) : Z := DaysInYear (YearFromTime t) - 365.

Definition DayWithinYear (t : Z) : Z := Day t - DayFromYear (YearFromTime t).

(** Number of days of the year before month [m] (0 = January). *)
Definition month_start (m leap : Z) : Z :=
  match m with
  | 0 => 0
  | 1 => 31
  | 2 => 59 + leap
  | 3 => 90 + leap
  | 4 => 120 + leap
  | 5 => 151 + leap
  | 6 => 181 + leap
  | 7 => 212 + leap
  | 8 => 243 + leap
  | 9 => 273 + leap
  | 10 => 304 + leap
  | _ => 334 + leap
  end.

Definition MonthFromTime (t : Z) : Z :=
  let d := DayWithinYear t in
  let leap := InLeapYear t in
  if d <? 31 then 0
  else if d <? 59 + leap then 1
  else if d <? 90 + leap then 2
  else if d <? 120 + leap then 3
  else if d <? 151 + leap then 4
  else if d <? 181 + leap then 5
  else if d <? 212 + leap then 6
  else if d <? 243 + leap then 7
  else if d <? 273 + leap then 8
  else if d <? 304 + leap then 9
  else if d <? 334 + leap then 10
  else 11.

Definition DateFromTime (t : Z) : Z :=
  DayWithinYear t - month_start (MonthFromTime t) (InLeapYear t) + 1.

(** [MakeDay(year, month, date)]: the day number of the first of the month
    (months beyond December carry into the year), plus [date - 1]. *)
Definition MakeDay (year month date : Z) : Z :=
  let ym := year + month / 12 in
  let mn := month mod 12 in
  DayFromYear ym + month_start mn (DaysInYear ym - 365) + date - 1.

Definition MakeDate (day time : Z) : Z := day * msPerDay + time.

(** [d.getDate()] and the time value after [d.setDate(dt)]. *)
Definition getDate (t : Z) : Z := DateFromTime t.

Definition setDate (t dt : Z) : Z :=
  MakeDate (MakeDay (YearFromTime t) (MonthFromTime t) dt) (TimeWithinDay t).

(** Year, month (1-12) and day of the month of a time value. *)
Definition civil (t : Z) : Z * Z * Z :=
  (YearFromTime t, MonthFromTime t + 1, DateFromTime t).

(** Midnight of a calendar day given as year, month (1-12), day. *)
Definition midnight (y m d : Z) : Z := MakeDate (MakeDay y (m - 1) d) 0.

(** [x.toFixed(f)], for a number below 10^21 in magnitude: the sign, then
    the integer [n] nearest to [|x| * 10^f] (the larger one on a tie),
    written with at least [f + 1] digits and a point before the last [f]. *)
Definition fixed_digits (n : Z) (f : nat) : jsstring :=
  let m := ToString n in
  if Nat.eqb f 0 then m
  else
    let m := padStart0 (S f) m in
    let k := List.length m in
    firstn (k - f) m ++ lit "." ++ skipn (k - f) m.

Definition toFixed (x : R) (f : nat) : jsstring :=
  if Rlt_dec x 0
  then lit "-" ++ fixed_digits (Zfloor (- x * IZR (10 ^ Z.of_nat f) + / 2)) f
  else fixed_digits (Zfloor (x * IZR (10 ^ Z.of_nat f) + / 2)) f.

(** The same on an integral number, where nothing is rounded. *)
Definition toFixed_int (k : Z) (f : nat) : jsstring :=
  if k <? 0
  then lit "-" ++ fixed_digits (- k * 10 ^ Z.of_nat f) f
  else fixed_digits (k * 10 ^ Z.of_nat f) f.

(** Truncation toward zero, and the remainder operator [%] on numbers:
    the result has the sign of the dividend. *)
Definition Rtrunc (x : R) : Z :=
  if Rle_dec 0 x then Zfloor x else - Zfloor (- x).

Definition rem (x y : R) : R := (x - y * IZR (Rtrunc (x / y)))%R.

(** A number as the search script meets it: [parseFloat] may give [NaN]
    or an infinity. *)
Inductive Number := NaN | Infinity (negative : bool) | Finite (x : R).

Definition Number_toFixed (n : Number) (f : nat) : jsstring :=
  match n with
  | NaN => lit "NaN"
  | Infinity false => lit "Infinity"
  | Infinity true => lit "-Infinity"
  | Finite x => toFixed x f
  end.

(** The white space and line terminators that [trim] removes. *)
Definition is_space (u : Z) : bool :=
  (9 <=? u) && (u <=? 13)
  || (u =? 32) || (u =? 160) || (u =? 5760)
  || (8192 <=? u) && (u <=? 8202)
  || (u =? 8232) || (u =? 8233) || (u =? 8239) || (u =? 8287)
  || (u =? 12288) || (u =? 65279).

Fixpoint trimStart (s : jsstring) : jsstring :=
  match s with
  | u :: s' => if is_space u then trimStart s' else s
  | [] => []
  end.

Definition trim (s : jsstring) : jsstring :=
  rev (trimStart (rev (trimStart s))).

End JS.

(** ** The report generator of [src/docs/index.tsx] *)

Module Generator.
Import JS.

(** The loop of [pseudoRandom]:
    [hash = seed.charCodeAt(i) + ((hash << 5) - hash)].
    Only [<<] wraps to 32 bits; the subtraction and the addition are
    ordinary number arithmetic, so the value handed to [Math.sin] is not
    itself reduced. *)
Definition hash_step (hash c : Z) : Z := c + (shl hash 5 - hash).

Definition hash_of (seed : jsstring) : Z := fold_left hash_step seed 0.

(** [Math.abs(Math.sin(hash) * 10000) % 1]. *)
Definition pseudoRandom (seed : jsstring) : R :=
  rem (Rabs (sin (IZR (hash_of seed)) * 10000)) 1.

(** *** The host and the monad of its calls *)

(** What the generator reads from its host: the text that [ToString] gives
    for the number returned by the k-th call of [Math.random()], the time
    value read by the k-th [new Date()], and the case mapping of
    [String.prototype.toUpperCase]. *)
Record Host := {
  Math_random : nat -> jsstring;
  Date_now : nat -> Z;
  toUpperCase : jsstring -> jsstring
}.

(** How many calls of each kind have been made. *)
Record Calls := { randoms : nat; dates : nat }.

Definition M (A : Type) : Type := Calls -> A * Calls.

Definition ret {A : Type} (a : A) : M A := fun c => (a, c).

Definition bind {A B : Type} (m : M A) (k : A -> M B) : M B :=
  fun c => k (fst (m c)) (snd (m c)).

Notation "x <- m ;; k" := (bind m (fun x => k))
  (at level 61, m at next level, right associativity).

Fixpoint mapM {A B : Type} (f : A -> M B) (l : list A) : M (list B) :=
  match l with
  | [] => ret []
  | a :: l' => b <- f a ;; bs <- mapM f l' ;; ret (b :: bs)
  end.

Definition random_call (host : Host) : M jsstring :=
  fun c => (Math_random host (randoms c),
            {| randoms := S (randoms c); dates := dates c |}).

Definition new_Date (host : Host) : M Z :=
  fun c => (Date_now host (dates c),
            {| randoms := randoms c; dates := S (dates c) |}).

(** *** The data of a report *)

Inductive Condition := Sunny | Cloudy | Rainy | PartlyCloudy.

Record DailyForecast := {
  date : Z;
  lowTemp : Z;
  highTemp : Z;
  condition : option Condition;
  precipitation : Z
}.

Record Coordinates := { lat : jsstring; long : jsstring }.

Module Current.
Record t := {
  temp : Z;
  feelsLike : Z;
  condition : option Condition;
  humidity : Z;
  windSpeed : Z;
  windDir : option jsstring;
  pressure : Z;
  visibility : Z;
  uvIndex : Z;
  dewPoint : Z
}.
End Current.

Record WeatherReportData := {
  location : jsstring;
  coordinates : Coordinates;
  generatedAt : Z;
  reportId : jsstring;
  current : Current.t;
  forecast : list DailyForecast
}.

(** *** [generateMockData] *)

Definition conditions : list Condition := [Sunny; Cloudy; Rainy; PartlyCloudy].

Definition compass : list jsstring :=
  map lit ["N"; "NE"; "E"; "SE"; "S"; "SW"; "W"; "NW"]%string.

(** [rng()]: the seed is the location followed by a fresh random number. *)
Definition rng (host : Host) (loc : jsstring) : M R :=
  r <- random_call host ;; ret (pseudoRandom (loc ++ r)).

(** The per-day draw: the seed is the location followed by the index. *)
Definition dayRng (loc : jsstring) (i : nat) : R :=
  pseudoRandom (loc ++ ToString (Z.of_nat i)).

(** The callback of [Array.from({ length: 7 }).map((_, i) => ...)]. *)
Definition forecast_day (host : Host) (loc : jsstring) (baseTemp : R)
    (i : nat) : M DailyForecast :=
  now <- new_Date host ;;
  ret {| date := setDate now (getDate now + Z.of_nat i + 1);
         lowTemp := Zfloor (baseTemp - 5 - dayRng loc i * 5);
         highTemp := Zfloor (baseTemp + dayRng loc i * 5);
         condition := index conditions (Zfloor (dayRng loc i * 4));
         precipitation := Zfloor (dayRng loc i * 100) |}.

(** [location.charAt(0).toUpperCase() + location.slice(1)]. *)
Definition capitalize (host : Host) (loc : jsstring) : jsstring :=
  toUpperCase host (firstn 1 loc) ++ skipn 1 loc.

(** The draws and clock readings are taken in the order in which
    JavaScript evaluates the body and the properties of the returned
    object. *)
Definition generateMockData (host : Host) (loc : jsstring)
    : M WeatherReportData :=
  d_base <- rng host loc ;;
  let baseTemp := (15 + d_base * 20)%R in
  d_cond <- rng host loc ;;
  let currentCondition := index conditions (Zfloor (d_cond * 4)) in
  days <- mapM (forecast_day host loc baseTemp) (seq 0 7) ;;
  d_lat <- rng host loc ;;
  d_long <- rng host loc ;;
  generated <- new_Date host ;;
  d_id <- rng host loc ;;
  d_feels <- rng host loc ;;
  d_humidity <- rng host loc ;;
  d_wind <- rng host loc ;;
  d_dir <- rng host loc ;;
  d_pressure <- rng host loc ;;
  d_visibility <- rng host loc ;;
  d_uv <- rng host loc ;;
  d_dew <- rng host loc ;;
  ret {| location := capitalize host loc;
         coordinates :=
           {| lat := toFixed (IZR (Zfloor (d_lat * 180) - 90)) 4;
              long := toFixed (IZR (Zfloor (d_long * 360) - 180)) 4 |};
         generatedAt := generated;
         reportId :=
           lit "RPT-" ++ padStart0 6 (ToString (Zfloor (d_id * 1000000)));
         current :=
           {| Current.temp := Zfloor baseTemp;
              Current.feelsLike := Zfloor (baseTemp + d_feels * 4 - 2);
              Current.condition := currentCondition;
              Current.humidity := Zfloor (40 + d_humidity * 50);
              Current.windSpeed := Zfloor (d_wind * 30);
              Current.windDir := index compass (Zfloor (d_dir * 8));
              Current.pressure := Zfloor (980 + d_pressure * 40);
              Current.visibility := Zfloor (5 + d_visibility * 15);
              Current.uvIndex := Zfloor (d_uv * 11);
              Current.dewPoint := Zfloor (baseTemp - d_dew * 10) |};
         forecast := days |}.

(** The report of a call made after [c] earlier host calls, and the draw
    of the k-th [rng()] of that call. *)
Definition report (host : Host) (loc : jsstring) (c : Calls)
    : WeatherReportData :=
  fst (generateMockData host loc c).

Definition draw (host : Host) (loc : jsstring) (c : Calls) (k : nat) : R :=
  pseudoRandom (loc ++ Math_random host (k + randoms c)).

(** *** Notions used in the statements *)

(** Entry [i] of the forecast, with the clock reading it is built from. *)
Definition forecast_entry (host : Host) (loc : jsstring) (c : Calls)
    (baseTemp : R) (i : nat) : DailyForecast :=
  let now := Date_now host (i + dates c) in
  {| date := setDate now (getDate now + Z.of_nat i + 1);
     lowTemp := Zfloor (baseTemp - 5 - dayRng loc i * 5);
     highTemp := Zfloor (baseTemp + dayRng loc i * 5);
     condition := index conditions (Zfloor (dayRng loc i * 4));
     precipitation := Zfloor (dayRng loc i * 100) |}.


(** *** Two concrete hosts

    Both run the generator for London at noon of 26 February 2024 and differ
    in the first number returned by [Math.random()] only:
    0.997537437 and 0.997537438. *)

Definition upper_ascii (s : jsstring) : jsstring :=
  map (fun u => if (97 <=? u) && (u <=? 122) then u - 32 else u) s.

Definition later_randoms (k : nat) : jsstring :=
  lit "0." ++ ToString (Z.of_nat (2 * k + 1)).

Definition noon : Z := midnight 2024 2 26 + 43200000.

Definition host_a : Host :=
  {| Math_random := fun k => match k with
                             | O => lit "0.997537437"
                             | _ => later_randoms k
                             end;
     Date_now := fun k => noon + Z.of_nat k;
     toUpperCase := upper_ascii |}.

Definition host_b : Host :=
  {| Math_random := fun k => match k with
                             | O => lit "0.997537438"
                             | _ => later_randoms k
                             end;
     Date_now := fun k => noon + Z.of_nat k;
     toUpperCase := upper_ascii |}.

Definition first_call : Calls := {| randoms := 0; dates := 0 |}.

(** The text of a number of (0, 1) that prints without an exponent:
    [0.] and at most 17 digits, the last of them not 0. *)
Definition plain_fraction (s : jsstring) : bool :=
  match s with
  | 48 :: 46 :: ds =>
      forallb (fun u => (48 <=? u) && (u <=? 57)) ds
      && (Nat.leb 1 (List.length ds)) && (Nat.leb (List.length ds) 17)
      && negb (last ds 0 =? 48)
  | _ => false
  end.

End Generator.

(** ** The autocomplete script (first unnamed script) *)

Module Search.
Import JS.

(** An element of the array answered by the place-search endpoint. *)
Module Api.
Record Candidate := {
  display_name : jsstring;
  lat : jsstring;
  lon : jsstring
}.
End Api.

(** The value of [selectedLocation] when it is not [null]. *)
Record Location := { name : jsstring; lat : Number; lon : Number }.

(** The content of [resultsContainer]: nothing, the note of a failed
    search, or one item per candidate (each item keeps the candidate's
    name and coordinates in its [dataset]). *)
Inductive Results :=
| NoContent
| ErrorNote
| Items (items : list Api.Candidate).

(** The text that the container shows. *)
Definition results_text (r : Results) : jsstring :=
  match r with
  | NoContent => []
  | ErrorNote => lit "Could not fetch results."
  | Items items => concat (map Api.display_name items)
  end.

(** The request [fetch(endpoint)]: the query and the result limit of the
    URL. *)
Record Request := { q : jsstring; limit : Z }.

(** How a request ends: [fetch] rejects, the response is not [ok],
    [response.json()] rejects or gives a value on which [displayResults]
    throws, or the array of candidates arrives.  The first three end in
    the [catch] block. *)
Inductive Outcome :=
| Rejected
| NotOk (status : Z)
| BadJson
| Json (data : list Api.Candidate).

Definition failed (o : Outcome) : bool :=
  match o with
  | Json _ => false
  | Rejected | NotOk _ | BadJson => true
  end.

Inductive Log :=
| LogFetchError
| LogGenerating (l : Location)
| LogNoSelection.

(** The page and the variables of the script.  [timeoutId] is the due time
    of the timer that the debounced listener has pending, if any; [fetched]
    lists the requests issued so far and [searched] the calls of
    [handleLocationSearch] with the time of each, oldest first. *)
Record State := {
  input_value : jsstring;
  selectedLocation : option Location;
  timeoutId : option Z;
  results : Results;
  hidden : bool;
  message : jsstring;
  text_red : bool;
  text_green : bool;
  console : list Log;
  in_flight : list Request;
  fetched : list Request;
  searched : list (Z * jsstring)
}.

Definition initial : State :=
  {| input_value := []; selectedLocation := None; timeoutId := None;
     results := NoContent; hidden := true;
     message := []; text_red := false; text_green := false;
     console := []; in_flight := []; fetched := []; searched := [] |}.

Definition with_input_value (v : jsstring) (s : State) : State :=
  {| input_value := v; selectedLocation := selectedLocation s;
     timeoutId := timeoutId s; results := results s; hidden := hidden s;
     message := message s; text_red := text_red s;
     text_green := text_green s; console := console s;
     in_flight := in_flight s; fetched := fetched s;
     searched := searched s |}.

Definition with_selectedLocation (l : option Location) (s : State) : State :=
  {| input_value := input_value s; selectedLocation := l;
     timeoutId := timeoutId s; results := results s; hidden := hidden s;
     message := message s; text_red := text_red s;
     text_green := text_green s; console := console s;
     in_flight := in_flight s; fetched := fetched s;
     searched := searched s |}.

Definition with_timeoutId (t : option Z) (s : State) : State :=
  {| input_value := input_value s; selectedLocation := selectedLocation s;
     timeoutId := t; results := results s; hidden := hidden s;
     message := message s; text_red := text_red s;
     text_green := text_green s; console := console s;
     in_flight := in_flight s; fetched := fetched s;
     searched := searched s |}.

Definition with_results (r : Results) (s : State) : State :=
  {| input_value := input_value s; selectedLocation := selectedLocation s;
     timeoutId := timeoutId s; results := r; hidden := hidden s;
     message := message s; text_red := text_red s;
     text_green := text_green s; console := console s;
     in_flight := in_flight s; fetched := fetched s;
     searched := searched s |}.

Definition with_hidden (h : bool) (s : State) : State :=
  {| input_value := input_value s; selectedLocation := selectedLocation s;
     timeoutId := timeoutId s; results := results s; hidden := h;
     message := message s; text_red := text_red s;
     text_green := text_green s; console := console s;
     in_flight := in_flight s; fetched := fetched s;
     searched := searched s |}.

Definition with_message (m : jsstring) (red green : bool) (s : State)
    : State :=
  {| input_value := input_value s; selectedLocation := selectedLocation s;
     timeoutId := timeoutId s; results := results s; hidden := hidden s;
     message := m; text_red := red; text_green := green;
     console := console s;
     in_flight := in_flight s; fetched := fetched s;
     searched := searched s |}.

Definition log (e : Log) (s : State) : State :=
  {| input_value := input_value s; selectedLocation := selectedLocation s;
     timeoutId := timeoutId s; results := results s; hidden := hidden s;
     message := message s; text_red := text_red s;
     text_green := text_green s; console := console s ++ [e];
     in_flight := in_flight s; fetched := fetched s;
     searched := searched s |}.

Definition with_in_flight (l : list Request) (s : State) : State :=
  {| input_value := input_value s; selectedLocation := selectedLocation s;
     timeoutId := timeoutId s; results := results s; hidden := hidden s;
     message := message s; text_red := text_red s;
     text_green := text_green s; console := console s;
     in_flight := l; fetched := fetched s;
     searched := searched s |}.

(** [fetch(endpoint)]: the request leaves at once and stays in flight
    until its outcome arrives. *)
Definition fetch (r : Request) (s : State) : State :=
  {| input_value := input_value s; selectedLocation := selectedLocation s;
     timeoutId := timeoutId s; results := results s; hidden := hidden s;
     message := message s; text_red := text_red s;
     text_green := text_green s; console := console s;
     in_flight := in_flight s ++ [r]; fetched := fetched s ++ [r];
     searched := searched s |}.

Definition note_search (t : Z) (query : jsstring) (s : State) : State :=
  {| input_value := input_value s; selectedLocation := selectedLocation s;
     timeoutId := timeoutId s; results := results s; hidden := hidden s;
     message := message s; text_red := text_red s;
     text_green := text_green s; console := console s;
     in_flight := in_flight s; fetched := fetched s;
     searched := searched s ++ [(t, query)] |}.

(** [handleLocationSearch(query)] up to its first [await]: a query of
    fewer than 3 code units empties and hides the list, any other one is
    sent to the endpoint with a limit of 5. *)
Definition handleLocationSearch (t : Z) (query : jsstring) (s : State)
    : State :=
  let s := note_search t query s in
  if (List.length query <? 3)%nat
  then with_hidden true (with_results NoContent s)
  else fetch {| q := query; limit := 5 |} s.

(** [displayResults(locations)]. *)
Definition displayResults (locations : list Api.Candidate) (s : State)
    : State :=
  let s := with_results NoContent s in
  match locations with
  | [] => with_hidden true s
  | _ :: _ => with_hidden false (with_results (Items locations) s)
  end.

(** The rest of [handleLocationSearch], once the outcome of its request
    is known: the [try] block or the [catch] block. *)
Definition settle (o : Outcome) (s : State) : State :=
  match o with
  | Json data => displayResults data s
  | Rejected | NotOk _ | BadJson =>
      with_hidden false (with_results ErrorNote (log LogFetchError s))
  end.

Fixpoint remove_nth {A : Type} (i : nat) (l : list A) : list A :=
  match l, i with
  | [], _ => []
  | _ :: l', O => l'
  | a :: l', S i' => a :: remove_nth i' l'
  end.

(** The outcome of the i-th request in flight arrives. *)
Definition on_response (i : nat) (o : Outcome) (s : State) : State :=
  match nth_error (in_flight s) i with
  | Some _ => settle o (with_in_flight (remove_nth i (in_flight s)) s)
  | None => s
  end.

(** The click listener of a result item. *)
Definition select (parseFloat : jsstring -> Number) (c : Api.Candidate)
    (s : State) : State :=
  let l := {| name := Api.display_name c;
              lat := parseFloat (Api.lat c);
              lon := parseFloat (Api.lon c) |} in
  with_hidden true
    (with_results NoContent
       (with_input_value (name l) (with_selectedLocation (Some l) s))).

(** The debounce interval of the input listener. *)
Definition delay : Z := 300.

(** The function handed to [debounce]: it runs when the timer expires and
    reads the value that the input box has then. *)
Definition listener (t : Z) (s : State) : State :=
  handleLocationSearch t (input_value s) (with_selectedLocation None s).

(** [debounce(func, delay)].  [call] is the function it returns, invoked
    at time [t]: [clearTimeout(timeoutId)], then a new timer due at
    [t + delay].  [task] is what the timer does as time passes until [t]:
    once due it runs [func], at the time it was due. *)
Record Debounced := {
  call : Z -> State -> State;
  task : Z -> State -> State
}.

Definition debounce (func : Z -> State -> State) (delay : Z) : Debounced :=
  {| call := fun t s => with_timeoutId (Some (t + delay)) s;
     task := fun t s =>
       match timeoutId s with
       | Some due =>
           if due <=? t then func due (with_timeoutId None s) else s
       | None => s
       end |}.

(** The listener attached to the [input] event. *)
Definition input_listener : Debounced := debounce listener delay.

(** No timer of [s] is due by time [t]. *)
Definition quiet (s : State) (t : Z) : Prop :=
  forall due : Z, timeoutId s = Some due -> t < due.

(** The [input] event: the box already holds the new value. *)
Definition on_input (t : Z) (v : jsstring) (s : State) : State :=
  call input_listener t (with_input_value v s).

(** Where a click lands. *)
Inductive Target :=
| OnInput
| OnButton
| OnItem (k : nat)
| OnResults
| OnPage.

(** The click listener of [generateButton]. *)
Definition generate (s : State) : State :=
  let s := with_message [] false false s in
  match selectedLocation s with
  | Some l =>
      with_message
        (lit "Generating report for: " ++ name l ++ lit " (Lat: "
           ++ Number_toFixed (lat l) 4 ++ lit ", Lon: "
           ++ Number_toFixed (lon l) 4 ++ lit ")")
        false true (log (LogGenerating l) s)
  | None =>
      with_message
        (lit "Please type a location and select it from the list.")
        true false (log LogNoSelection s)
  end.

(** A click: the listener of the element, then the listener of the
    document, which hides the list unless the click was on the input box
    or inside the list.  A selected item has left the list by then. *)
Definition on_click (parseFloat : jsstring -> Number) (target : Target)
    (s : State) : State :=
  match target with
  | OnInput | OnResults => s
  | OnPage => with_hidden true s
  | OnButton => with_hidden true (generate s)
  | OnItem k =>
      match results s, hidden s with
      | Items items, false =>
          match nth_error items k with
          | Some c => with_hidden true (select parseFloat c s)
          | None => s
          end
      | _, _ => s
      end
  end.

Inductive Event :=
| Input (v : jsstring)
| Click (target : Target)
| Response (i : nat) (o : Outcome).

(** An event at time [t], after the timers due by then. *)
Definition step (parseFloat : jsstring -> Number) (s : State)
    (te : Z * Event) : State :=
  let s := task input_listener (fst te) s in
  match snd te with
  | Input v => on_input (fst te) v s
  | Click target => on_click parseFloat target s
  | Response i o => on_response i o s
  end.

Definition run (parseFloat : jsstring -> Number) (s : State)
    (trace : list (Z * Event)) : State :=
  fold_left (step parseFloat) trace s.

(** Idle until time [t]. *)
Definition wait (t : Z) (s : State) : State := task input_listener t s.

(** A burst of keystrokes that starts at time [t]: every keystroke comes
    less than [delay] after the one before. *)
Fixpoint burst (t : Z) (keys : list (Z * jsstring)) : Prop :=
  match keys with
  | [] => True
  | (t', _) :: keys' => t <= t' < t + delay /\ burst t' keys'
  end.

Definition typing (keys : list (Z * jsstring)) : list (Z * Event) :=
  map (fun k => (fst k, Input (snd k))) keys.

Definition kyoto : Api.Candidate :=
  {| Api.display_name := lit "Kyoto, Japan";
     Api.lat := lit "35.0116";
     Api.lon := lit "135.7681" |}.

(** A session: "kyo" is typed, the search answers with Kyoto, the user
    picks it, types one more character at time 2000 and presses the button
    at [press]. *)
Definition session (press : Z) : list (Z * Event) :=
  [ (0, Input (lit "kyo"));
    (400, Response 0 (Json [kyoto]));
    (1000, Click (OnItem 0));
    (2000, Input (lit "Kyoto, Japanx"));
    (press, Click OnButton) ].

(** Another session: with the candidates of "kyo" on display the user
    types a fourth character at time 1000, picks Kyoto at 1100 and presses
    the button at 2000. *)
Definition late_pick : list (Z * Event) :=
  [ (0, Input (lit "kyo"));
    (400, Response 0 (Json [kyoto]));
    (1000, Input (lit "kyot"));
    (1100, Click (OnItem 0));
    (2000, Click OnButton) ].


End Search.

(** ** The plain button script (second unnamed script) *)

Module Plain.
Import JS.

Inductive Entry := SaidGenerating (location : jsstring) | SaidNoLocation.

(** The page and the variable [location] of the script. *)
Record Page := {
  location : jsstring;
  message : jsstring;
  text_red : bool;
  text_green : bool;
  console : list Entry
}.

Definition blank : Page :=
  {| location := []; message := []; text_red := false;
     text_green := false; console := [] |}.

(** The [input] listener. *)
Definition typed (v : jsstring) (s : Page) : Page :=
  {| location := v; message := message s; text_red := text_red s;
     text_green := text_green s; console := console s |}.

(** The click listener of [generateButton]. *)
Definition pressed (s : Page) : Page :=
  match trim (location s) with
  | _ :: _ =>
      {| location := location s;
         message := lit "Generating report for: " ++ location s ++ lit "...";
         text_red := false; text_green := true;
         console := console s ++ [SaidGenerating (location s)] |}
  | [] =>
      {| location := location s;
         message := lit "Please enter a location first.";
         text_red := true; text_green := false;
         console := console s ++ [SaidNoLocation] |}
  end.

End Plain.

(** ** Notions for the statements on the generator *)

Module Notions.
Import JS Generator.

(** The polynomial hash that the loop of [pseudoRandom] computes modulo
    2^32: [hash * 31 + c] without any wrap-around. *)
Definition poly31 (seed : jsstring) : Z :=
  fold_left (fun h c => 31 * h + c) seed 0.

Definition is_digit (u : Z) : bool := (48 <=? u) && (u <=? 57).

(** Six decimal digits. *)
Definition six_digits (s : jsstring) : bool :=
  Nat.eqb (List.length s) 6 && forallb is_digit s.

(** A decimal digit put before a number written least digit first, and
    the [k] lowest digits of [n] written that way. *)
Definition dig (a : N) (rest : Decimal.uint) : Decimal.uint :=
  match N.to_nat a with
  | 0%nat => Decimal.D0 rest
  | 1%nat => Decimal.D1 rest
  | 2%nat => Decimal.D2 rest
  | 3%nat => Decimal.D3 rest
  | 4%nat => Decimal.D4 rest
  | 5%nat => Decimal.D5 rest
  | 6%nat => Decimal.D6 rest
  | 7%nat => Decimal.D7 rest
  | 8%nat => Decimal.D8 rest
  | _ => Decimal.D9 rest
  end.

Fixpoint little (k : nat) (n : N) : Decimal.uint :=
  match k with
  | O => Decimal.Nil
  | S k' => dig (n mod 10) (little k' (n / 10))
  end.

(** The condition that goes with a precipitation figure. *)
Definition condition_of_precipitation (p : Z) : Condition :=
  if p <? 25 then Sunny
  else if p <? 50 then Cloudy
  else if p <? 75 then Rainy
  else PartlyCloudy.

End Notions.

(** ** What the page of [src/docs/index.tsx] computes from a report *)

Module Render.
Import JS Generator.

(** The style of the temperature bar of a forecast row:
    [Math.min(100, Math.max(0, day.lowTemp * 2))] per cent of left margin,
    [Math.min(100, Math.max(10, (day.highTemp - day.lowTemp) * 3))] per
    cent of width. *)
Definition bar_marginLeft (day : DailyForecast) : Z :=
  Z.min 100 (Z.max 0 (lowTemp day * 2)).

Definition bar_width (day : DailyForecast) : Z :=
  Z.min 100 (Z.max 10 ((highTemp day - lowTemp day) * 3)).

End Render.

(** ** The component [VacationWeather] of [src/docs/index.tsx] *)

Module App.
Import JS Generator.

Inductive Status := idle | loading | success.

(** The three pieces of React state, the timers that [handleGenerate] has
    set (the time each is due and the [inputValue] its callback closed
    over, oldest first) and the calls made to the host so far. *)
Record State := {
  inputValue : jsstring;
  status : Status;
  data : option WeatherReportData;
  timers : list (Z * jsstring);
  calls : Calls
}.

Definition start (c : Calls) : State :=
  {| inputValue := []; status := idle; data := None; timers := [];
     calls := c |}.

(** The simulated latency of [handleGenerate]. *)
Definition latency : Z := 1500.

(** [onChange]: [setInputValue(e.target.value)]. *)
Definition onChange (v : jsstring) (s : State) : State :=
  {| inputValue := v; status := status s; data := data s;
     timers := timers s; calls := calls s |}.

(** [handleGenerate], at time [t]: nothing on an input that trims to the
    empty string, else [loading] and a timer. *)
Definition handleGenerate (t : Z) (s : State) : State :=
  match trim (inputValue s) with
  | [] => s
  | _ :: _ =>
      {| inputValue := inputValue s; status := loading; data := data s;
         timers := timers s ++ [(t + latency, inputValue s)];
         calls := calls s |}
  end.

(** The callback of the timer:
    [setData(generateMockData(inputValue)); setStatus('success')]. *)
Definition finish (host : Host) (v : jsstring) (s : State) : State :=
  {| inputValue := inputValue s; status := success;
     data := Some (fst (generateMockData host v (calls s)));
     timers := timers s;
     calls := snd (generateMockData host v (calls s)) |}.

Definition with_timers (l : list (Z * jsstring)) (s : State) : State :=
  {| inputValue := inputValue s; status := status s; data := data s;
     timers := l; calls := calls s |}.

(** Time passes until [t]: the timers due by then run, oldest first. *)
Fixpoint expire (host : Host) (t : Z) (l : list (Z * jsstring)) (s : State)
    : State :=
  match l with
  | [] => s
  | (due, v) :: l' =>
      if due <=? t
      then expire host t l' (finish host v s)
      else
        let s' := expire host t l' s in
        with_timers ((due, v) :: timers s') s'
  end.

Definition wait (host : Host) (t : Z) (s : State) : State :=
  expire host t (timers s) (with_timers [] s).

(** What the user can do: edit the box or submit the form.  The box and
    the button are [disabled] while [status] is [loading]. *)
Inductive Event := Change (v : jsstring) | Submit.

Definition step (host : Host) (s : State) (te : Z * Event) : State :=
  let s := wait host (fst te) s in
  match status s with
  | loading => s
  | idle | success =>
      match snd te with
      | Change v => onChange v s
      | Submit => handleGenerate (fst te) s
      end
  end.

Definition run (host : Host) (s : State) (trace : list (Z * Event)) : State :=
  fold_left (step host) trace s.

(** What the page relies on: a report is at hand whenever [status] is
    [success], a timer is pending exactly while it is [loading], and never
    more than one. *)
Definition consistent (s : State) : Prop :=
  (status s = success -> data s <> None) /\
  (status s = idle -> data s = None) /\
  (status s = loading <-> timers s <> []) /\
  (List.length (timers s) <= 1)%nat.

End App.

(** ** Notions for the traces of the autocomplete script *)

Module Traces.
Import JS Search.

(** The list is not on display with nothing in it. *)
Definition never_shown_empty (s : State) : Prop :=
  hidden s = false -> results s <> NoContent /\ results s <> Items [].

(** With a selection held and no keystroke waiting for its timer, the box
    reads the name of the selection. *)
Definition box_shows_selection (s : State) : Prop :=
  forall l : Location,
    selectedLocation s = Some l -> timeoutId s = None ->
    input_value s = name l.



(** Times that are at least [delay] apart, in increasing order. *)
Fixpoint spaced (l : list Z) : Prop :=
  match l with
  | a :: (b :: _) as l' => a + delay <= b /\ spaced l'
  | _ => True
  end.

(** A trace whose events come in the order of their times, from [now]
    on. *)
Fixpoint chronological (now : Z) (trace : list (Z * Event)) : Prop :=
  match trace with
  | [] => True
  | (t, _) :: trace' => now <= t /\ chronological t trace'
  end.

Definition is_input (te : Z * Event) : bool :=
  match snd te with
  | Input _ => true
  | _ => false
  end.

(** The searches made so far lie in the past, at least [delay] apart, and
    at least [delay] before the timer that is pending. *)
Definition paced (s : State) (now : Z) : Prop :=
  (forall t v, In (t, v) (searched s) -> t <= now) /\
  spaced (map fst (searched s)) /\
  (forall due, timeoutId s = Some due ->
     forall t v, In (t, v) (searched s) -> t + delay <= due).

Definition pending (s : State) : nat :=
  match timeoutId s with
  | Some _ => 1
  | None => 0
  end.

End Traces.

(** ** Properties of the built-ins *)

Module JSFacts.
Import JS.

Example civil_epoch : civil 0 = (1970, 1, 1).
Proof. reflexivity. Qed.

Example civil_leap_day : civil (midnight 2024 2 29 + 3600000) = (2024, 2, 29).
Proof. reflexivity. Qed.

Example setDate_month_end :
  civil (setDate (midnight 2023 12 29) (getDate (midnight 2023 12 29) + 4))
  = (2024, 1, 2).
Proof. reflexivity. Qed.

Example setDate_february :
  map (fun i => civil (setDate (midnight 2100 2 26)
                               (getDate (midnight 2100 2 26) + i + 1)))
      [0; 1; 2; 3]
  = [(2100, 2, 27); (2100, 2, 28); (2100, 3, 1); (2100, 3, 2)].
Proof. reflexivity. Qed.

Example toFixed_int_minus90 : toFixed_int (-90) 4 = lit "-90.0000".
Proof. reflexivity. Qed.

Example toFixed_int_zero : toFixed_int 0 4 = lit "0.0000".
Proof. reflexivity. Qed.

Lemma ToInt32_range x : -2147483648 <= ToInt32 x < 2147483648.
Proof.
  unfold ToInt32.
  pose proof (Z.mod_pos_bound x 4294967296 eq_refl) as Hm.
  destruct (Z.leb_spec 2147483648 (x mod 4294967296)); lia.
Qed.

Lemma ToInt32_congr x : (ToInt32 x - x) mod 4294967296 = 0.
Proof.
  unfold ToInt32.
  destruct (Z.leb_spec 2147483648 (x mod 4294967296)).
  - replace (x mod 4294967296 - 4294967296 - x)
      with (x mod 4294967296 - x + (-1) * 4294967296) by ring.
    rewrite Z.mod_add by discriminate.
    rewrite Zminus_mod, Z.mod_mod, Z.sub_diag by discriminate. reflexivity.
  - rewrite Zminus_mod, Z.mod_mod, Z.sub_diag by discriminate. reflexivity.
Qed.

Lemma shl_range x n : -2147483648 <= shl x n < 2147483648.
Proof. apply ToInt32_range. Qed.

Lemma DayFromYear_succ y : DayFromYear (y + 1) = DayFromYear y + DaysInYear y.
Proof.
  unfold DayFromYear, DaysInYear.
  repeat match goal with
         | |- context [?a =? ?b] => destruct (Z.eqb_spec a b)
         end; simpl negb; cbv iota; Z.div_mod_to_equations; lia.
Qed.

(** [YearFromTime] is the year whose days include the day of [t]. *)
Lemma year_of_day_spec d :
  DayFromYear (year_of_day d) <= d < DayFromYear (year_of_day d + 1).
Proof.
  unfold year_of_day.
  set (y := 1970 + 400 * d / 146097).
  destruct (Z.ltb_spec d (DayFromYear y)).
  - split.
    + unfold DayFromYear in *. subst y. Z.div_mod_to_equations. lia.
    + replace (y - 1 + 1) with y by ring. lia.
  - destruct (Z.leb_spec (DayFromYear (y + 1)) d).
    + split; [lia|].
      unfold DayFromYear in *. subst y. Z.div_mod_to_equations. lia.
    + lia.
Qed.

Lemma DaysInYear_cases y : DaysInYear y = 365 \/ DaysInYear y = 366.
Proof.
  unfold DaysInYear.
  repeat match goal with
         | |- context [?a =? ?b] => destruct (Z.eqb_spec a b)
         end; simpl; auto.
Qed.

Lemma DayWithinYear_range t :
  0 <= DayWithinYear t < 365 + InLeapYear t.
Proof.
  unfold DayWithinYear, InLeapYear, YearFromTime.
  pose proof (year_of_day_spec (Day t)) as H.
  rewrite DayFromYear_succ in H. lia.
Qed.


(** The day of the month counts from the first day of the month. *)
Lemma DateFromTime_range t : 1 <= DateFromTime t <= 31.
Proof.
  pose proof (DayWithinYear_range t) as Hd.
  assert (Hl : InLeapYear t = 0 \/ InLeapYear t = 1).
  { unfold InLeapYear. destruct (DaysInYear_cases (YearFromTime t)); lia. }
  unfold DateFromTime, MonthFromTime.
  repeat match goal with
         | |- context [?a <? ?b] => destruct (Z.ltb_spec a b)
         end; cbn [month_start]; lia.
Qed.

Lemma Day_MakeDate d time :
  0 <= time < msPerDay -> Day (MakeDate d time) = d.
Proof.
  intros Ht. unfold Day, MakeDate.
  rewrite Z.add_comm, Z.div_add by discriminate.
  rewrite Z.div_small by assumption. reflexivity.
Qed.

Lemma DayFromYear_mono a b : a <= b -> DayFromYear a <= DayFromYear b.
Proof.
  intros H. unfold DayFromYear. Z.div_mod_to_equations. lia.
Qed.

Lemma year_of_day_unique d y :
  DayFromYear y <= d < DayFromYear (y + 1) -> year_of_day d = y.
Proof.
  intros H. pose proof (year_of_day_spec d) as S.
  destruct (Z.lt_trichotomy (year_of_day d) y) as [L|[E|G]]; [|exact E|].
  - pose proof (DayFromYear_mono (year_of_day d + 1) y ltac:(lia)). lia.
  - pose proof (DayFromYear_mono (y + 1) (year_of_day d) ltac:(lia)). lia.
Qed.

(** [MakeDay] finds the day that ECMA-262 asks for: the time value
    whose year is [y], whose month is [m] and whose date is 1. *)
Lemma MakeDay_first_of_month y m :
  0 <= m < 12 ->
  let t := MakeDate (MakeDay y m 1) 0 in
  YearFromTime t = y /\ MonthFromTime t = m /\ DateFromTime t = 1.
Proof.
  intros Hm t.
  assert (Hday : Day t = DayFromYear y + month_start m (DaysInYear y - 365)).
  { subst t. rewrite Day_MakeDate by (unfold msPerDay; lia).
    unfold MakeDay. rewrite Z.div_small, Z.mod_small by lia.
    rewrite Z.add_0_r. ring. }
  assert (Hleap : DaysInYear y = 365 \/ DaysInYear y = 366)
    by apply DaysInYear_cases.
  assert (Hstart : 0 <= month_start m (DaysInYear y - 365) < DaysInYear y).
  { assert (Hc : m = 0 \/ m = 1 \/ m = 2 \/ m = 3 \/ m = 4 \/ m = 5 \/ m = 6
                 \/ m = 7 \/ m = 8 \/ m = 9 \/ m = 10 \/ m = 11) by lia.
    repeat (destruct Hc as [-> | Hc]); [..| subst m];
      cbn [month_start]; lia. }
  assert (Hy : YearFromTime t = y).
  { unfold YearFromTime. apply year_of_day_unique.
    rewrite DayFromYear_succ, Hday. lia. }
  assert (Hw : DayWithinYear t = month_start m (DaysInYear y - 365)).
  { unfold DayWithinYear. rewrite Hy, Hday. ring. }
  assert (Hmonth : MonthFromTime t = m).
  { unfold MonthFromTime, InLeapYear. rewrite Hw, Hy.
    assert (Hc : m = 0 \/ m = 1 \/ m = 2 \/ m = 3 \/ m = 4 \/ m = 5 \/ m = 6
                 \/ m = 7 \/ m = 8 \/ m = 9 \/ m = 10 \/ m = 11) by lia.
    repeat (destruct Hc as [-> | Hc]); [..| subst m];
      cbn [month_start];
      repeat match goal with
             | |- context [?a <? ?b] => destruct (Z.ltb_spec a b); try lia
             end. }
  split; [exact Hy|]. split; [exact Hmonth|].
  unfold DateFromTime, InLeapYear. rewrite Hmonth, Hw, Hy. ring.
Qed.



Lemma TimeWithinDay_setDate t dt :
  TimeWithinDay (setDate t dt) = TimeWithinDay t.
Proof.
  unfold setDate, MakeDate, TimeWithinDay.
  rewrite Z.add_comm, Z.mod_add by discriminate.
  apply Z.mod_mod. discriminate.
Qed.

Lemma Zfloor_half (n : Z) : Zfloor (IZR n + / 2) = n.
Proof. apply Zfloor_eq. lra. Qed.

Lemma toFixed_IZR k f : toFixed (IZR k) f = toFixed_int k f.
Proof.
  unfold toFixed, toFixed_int.
  destruct (Rlt_dec (IZR k) 0) as [Hk|Hk]; destruct (Z.ltb_spec k 0) as [Hz|Hz].
  - rewrite <- opp_IZR, <- mult_IZR, Zfloor_half. reflexivity.
  - apply IZR_le in Hz. lra.
  - apply IZR_lt in Hz. lra.
  - rewrite <- mult_IZR, Zfloor_half. reflexivity.
Qed.

(** Four decimals of an integer of at most three digits: the integer
    followed by [.0000]. *)
Lemma toFixed_int_4 k :
  -180 <= k < 180 -> toFixed_int k 4 = ToString k ++ lit ".0000".
Proof.
  intros Hk.
  set (good := fun k => if list_eq_dec Z.eq_dec (toFixed_int k 4)
                                       (ToString k ++ lit ".0000")
                        then true else false).
  assert (Hall : forallb good (map (fun i => Z.of_nat i - 180) (seq 0 360))
                 = true) by (vm_compute; reflexivity).
  rewrite forallb_forall in Hall.
  specialize (Hall k).
  assert (Hin : In k (map (fun i => Z.of_nat i - 180) (seq 0 360))).
  { apply in_map_iff. exists (Z.to_nat (k + 180)). split; [lia|].
    apply in_seq. lia. }
  specialize (Hall Hin). unfold good in Hall.
  destruct (list_eq_dec Z.eq_dec (toFixed_int k 4) (ToString k ++ lit ".0000"));
    [assumption | discriminate].
Qed.

(** On a non-negative dividend, [x % 1] is the fractional part. *)
Lemma rem_1_nonneg x : (0 <= x)%R -> rem x 1 = (x - IZR (Zfloor x))%R.
Proof.
  intros Hx. unfold rem, Rtrunc.
  replace (x / 1)%R with x by (unfold Rdiv; rewrite Rinv_1; ring).
  destruct (Rle_dec 0 x) as [_|Hn]; [ring | contradiction].
Qed.

Lemma rem_1_range x : (0 <= x)%R -> (0 <= rem x 1 < 1)%R.
Proof.
  intros Hx. rewrite rem_1_nonneg by assumption.
  pose proof (Zfloor_bound x). lra.
Qed.

End JSFacts.

(** ** Properties of the report generator *)

Module GeneratorFacts.
Import JS JSFacts Generator.

Example hash_of_Kyoto : hash_of (lit "Kyoto") = 72979164.
Proof. reflexivity. Qed.

Example hash_of_digit0 : hash_of (lit "0") = 48.
Proof. reflexivity. Qed.

(** The hash stays an exactly representable integer for every seed a
    program can build in practice: its magnitude grows by at most
    2^31 + 2^16 per code unit. *)
Lemma hash_step_bound h c :
  0 <= c < 65536 -> Z.abs (hash_step h c) <= Z.abs h + 2147549184.
Proof.
  intros Hc. unfold hash_step. pose proof (shl_range h 5). lia.
Qed.

Lemma hash_of_bound seed :
  code_units seed ->
  Z.abs (hash_of seed) <= Z.of_nat (length seed) * 2147549184.
Proof.
  unfold hash_of.
  assert (G : forall s h, code_units s ->
            Z.abs (fold_left hash_step s h)
            <= Z.abs h + Z.of_nat (length s) * 2147549184).
  { induction s as [|c s IH]; intros h Hs; simpl length; simpl fold_left.
    - lia.
    - inversion Hs as [|? ? Hc Hs']; subst.
      specialize (IH (hash_step h c) Hs').
      pose proof (hash_step_bound h c Hc). lia. }
  intros Hs. specialize (G seed 0 Hs). simpl Z.abs in G. lia.
Qed.

(** Modulo 2^32 the loop is the polynomial hash [hash*31 + c]. *)
Lemma hash_step_congr h c :
  (hash_step h c - (31 * h + c)) mod 4294967296 = 0.
Proof.
  unfold hash_step, shl.
  change (5 mod 32) with 5. rewrite Z.shiftl_mul_pow2 by lia.
  change (2 ^ 5) with 32.
  pose proof (ToInt32_congr (ToInt32 h * 32)) as H1.
  pose proof (ToInt32_congr h) as H2.
  apply Z.mod_divide in H1; [|discriminate].
  apply Z.mod_divide in H2; [|discriminate].
  apply Z.mod_divide; [discriminate|].
  destruct H1 as [a Ha], H2 as [b Hb].
  exists (a + 32 * b). lia.
Qed.

Lemma pseudoRandom_range seed : (0 <= pseudoRandom seed < 1)%R.
Proof. unfold pseudoRandom. apply rem_1_range, Rabs_pos. Qed.

Lemma forecast_closed host loc c :
  forecast (report host loc c)
  = map (forecast_entry host loc c (15 + draw host loc c 0 * 20)) (seq 0 7).
Proof. reflexivity. Qed.

Lemma current_closed host loc c :
  current (report host loc c)
  = let baseTemp := (15 + draw host loc c 0 * 20)%R in
    {| Current.temp := Zfloor baseTemp;
       Current.feelsLike := Zfloor (baseTemp + draw host loc c 5 * 4 - 2);
       Current.condition := index conditions (Zfloor (draw host loc c 1 * 4));
       Current.humidity := Zfloor (40 + draw host loc c 6 * 50);
       Current.windSpeed := Zfloor (draw host loc c 7 * 30);
       Current.windDir := index compass (Zfloor (draw host loc c 8 * 8));
       Current.pressure := Zfloor (980 + draw host loc c 9 * 40);
       Current.visibility := Zfloor (5 + draw host loc c 10 * 15);
       Current.uvIndex := Zfloor (draw host loc c 11 * 11);
       Current.dewPoint := Zfloor (baseTemp - draw host loc c 12 * 10) |}.
Proof. reflexivity. Qed.

Lemma coordinates_closed host loc c :
  coordinates (report host loc c)
  = {| lat := toFixed (IZR (Zfloor (draw host loc c 2 * 180) - 90)) 4;
       long := toFixed (IZR (Zfloor (draw host loc c 3 * 360) - 180)) 4 |}.
Proof. reflexivity. Qed.


(** One call makes thirteen draws and reads the clock eight times. *)
Lemma calls_after host loc c :
  snd (generateMockData host loc c)
  = {| randoms := 13 + randoms c; dates := 8 + dates c |}.
Proof. reflexivity. Qed.

Lemma draw_range host loc c k : (0 <= draw host loc c k < 1)%R.
Proof. apply pseudoRandom_range. Qed.

(** [Math.floor(lo + d * w)] for a draw [d] of [0, 1) and integers
    [lo], [w]. *)
Lemma floor_scaled (d : R) (lo w : Z) :
  (0 <= d < 1)%R -> 0 < w ->
  lo <= Zfloor (IZR lo + d * IZR w) < lo + w.
Proof.
  intros Hd Hw.
  assert (HwR : (0 < IZR w)%R) by (apply IZR_lt in Hw; exact Hw).
  pose proof (Zfloor_bound (IZR lo + d * IZR w)) as [Hlo Hhi].
  split.
  - apply Zfloor_lub. nra.
  - apply lt_IZR. rewrite plus_IZR. nra.
Qed.

Lemma floor_draw (d : R) (w : Z) :
  (0 <= d < 1)%R -> 0 < w -> 0 <= Zfloor (d * IZR w) < w.
Proof.
  intros Hd Hw. pose proof (floor_scaled d 0 w Hd Hw) as H.
  replace (IZR 0 + d * IZR w)%R with (d * IZR w)%R in H by ring.
  lia.
Qed.

(** *** The seed function *)

(** C1.  [pseudoRandom] is a total function of its argument alone: it
    returns a value of [0, 1) for every string, the empty string hashes to
    0 (and draws 0), and equal strings give equal values. *)
Theorem pseudoRandom_total_unit_interval :
  (forall seed : jsstring, (0 <= pseudoRandom seed < 1)%R) /\
  hash_of [] = 0 /\
  pseudoRandom [] = 0%R /\
  (forall seed seed' : jsstring,
      seed = seed' -> pseudoRandom seed = pseudoRandom seed').
Proof.
  split; [exact pseudoRandom_range|].
  split; [reflexivity|].
  split.
  - unfold pseudoRandom. cbn [hash_of fold_left].
    rewrite sin_0, Rmult_0_l, Rabs_R0, rem_1_nonneg by lra.
    replace 0%R with (IZR 0) at 2 by reflexivity. rewrite ZfloorZ. lra.
  - intros seed seed' ->. reflexivity.
Qed.

Lemma pseudoRandom_total_unit_interval_witness :
  (0 <= pseudoRandom (lit "Kyoto") < 1)%R /\
  pseudoRandom (lit "Kyoto" ++ lit "3") = pseudoRandom (lit "Kyoto3").
Proof.
  destruct pseudoRandom_total_unit_interval as [Hr [_ [_ Hd]]].
  split; [apply Hr | apply Hd; reflexivity].
Defined.


Example hosts_well_formed :
  forallb (fun k => plain_fraction (Math_random host_a k)
                    && plain_fraction (Math_random host_b k)) (seq 0 13)
  = true.
Proof. vm_compute. reflexivity. Qed.



Example forecast_dates_a :
  map (fun f => civil (date f))
      (forecast (report host_a (lit "London") first_call))
  = [(2024, 2, 27); (2024, 2, 28); (2024, 2, 29); (2024, 3, 1);
     (2024, 3, 2); (2024, 3, 3); (2024, 3, 4)].
Proof.
  rewrite forecast_closed, map_map. cbn [seq map forecast_entry date].
  vm_compute. reflexivity.
Qed.








(** *** Coordinates and current conditions *)

(** C4.  The coordinates are [floor(draw*180) - 90] and
    [floor(draw*360) - 180] printed with four decimals; both numbers are
    integers, of [-90, 90) and [-180, 180), so each string is that integer
    followed by [.0000]. *)
Theorem coordinates_integer_valued host loc c :
  let la := Zfloor (draw host loc c 2 * 180) - 90 in
  let lo := Zfloor (draw host loc c 3 * 360) - 180 in
  lat (coordinates (report host loc c)) = toFixed (IZR la) 4 /\
  long (coordinates (report host loc c)) = toFixed (IZR lo) 4 /\
  -90 <= la < 90 /\ -180 <= lo < 180 /\
  lat (coordinates (report host loc c)) = ToString la ++ lit ".0000" /\
  long (coordinates (report host loc c)) = ToString lo ++ lit ".0000".
Proof.
  intros la lo.
  pose proof (floor_draw _ 180 (draw_range host loc c 2) eq_refl) as Hla.
  pose proof (floor_draw _ 360 (draw_range host loc c 3) eq_refl) as Hlo.
  rewrite coordinates_closed. cbn [lat long]. fold la lo.
  assert (Ra : -90 <= la < 90) by (subst la; lia).
  assert (Ro : -180 <= lo < 180) by (subst lo; lia).
  repeat split; try lia.
  - rewrite toFixed_IZR. apply toFixed_int_4. lia.
  - rewrite toFixed_IZR. apply toFixed_int_4. lia.
Qed.

(** C5.  Humidity lies in [40, 90), the UV index is an integer of
    [0, 11), pressure lies in [980, 1020). *)
Theorem current_ranges host loc c :
  let cur := current (report host loc c) in
  40 <= Current.humidity cur < 90 /\
  0 <= Current.uvIndex cur < 11 /\
  980 <= Current.pressure cur < 1020.
Proof.
  cbv zeta. rewrite current_closed.
  cbn [Current.humidity Current.uvIndex Current.pressure].
  pose proof (floor_scaled _ 40 50 (draw_range host loc c 6) eq_refl).
  pose proof (floor_draw _ 11 (draw_range host loc c 11) eq_refl).
  pose proof (floor_scaled _ 980 40 (draw_range host loc c 9) eq_refl).
  lia.
Qed.

(** C10.  On every forecast day the high exceeds the low by at least 5,
    the two being [floor(base - 5 - dayDraw*5)] and
    [floor(base + dayDraw*5)] for the day's draw of [0, 1). *)
Theorem forecast_high_above_low host loc c :
  Forall (fun f => lowTemp f + 5 <= highTemp f /\ lowTemp f < highTemp f)
         (forecast (report host loc c)) /\
  forall i : nat, (i < 7)%nat ->
    exists f : DailyForecast,
      nth_error (forecast (report host loc c)) i = Some f /\
      (0 <= dayRng loc i < 1)%R /\
      lowTemp f
      = Zfloor (15 + draw host loc c 0 * 20 - 5 - dayRng loc i * 5) /\
      highTemp f
      = Zfloor (15 + draw host loc c 0 * 20 + dayRng loc i * 5).
Proof.
  rewrite forecast_closed. split.
  - apply Forall_forall. intros f Hf.
    apply in_map_iff in Hf. destruct Hf as [i [<- _]].
    cbn [forecast_entry lowTemp highTemp].
    set (base := (15 + draw host loc c 0 * 20)%R).
    pose proof (pseudoRandom_range (loc ++ ToString (Z.of_nat i))) as Hd.
    fold (dayRng loc i) in Hd.
    assert (H5 : Zfloor (base - 5 - dayRng loc i * 5) + 5
                 <= Zfloor (base + dayRng loc i * 5)).
    { rewrite <- Zfloor_addz. apply Zfloor_le. lra. }
    lia.
  - intros i Hi.
    exists (forecast_entry host loc c (15 + draw host loc c 0 * 20) i).
    split.
    + rewrite nth_error_map.
      rewrite (nth_error_nth' (seq 0 7) 0%nat)
        by (rewrite length_seq; exact Hi).
      rewrite seq_nth by exact Hi. reflexivity.
    + split; [apply pseudoRandom_range|]. split; reflexivity.
Qed.

Lemma forecast_high_above_low_witness :
  exists f : DailyForecast,
    nth_error (forecast (report host_a (lit "London") first_call)) 3 = Some f /\
    lowTemp f + 5 <= highTemp f.
Proof.
  destruct (forecast_high_above_low host_a (lit "London") first_call)
    as [Hall Hnth].
  destruct (Hnth 3%nat ltac:(lia)) as [f [Hf _]].
  exists f. split; [exact Hf|].
  rewrite Forall_forall in Hall.
  apply (Hall f). eapply nth_error_In. exact Hf.
Defined.

End GeneratorFacts.

(** ** Properties of the autocomplete script *)

Module SearchFacts.
Import JS Search.

Example trim_example : trim (lit "  ky ") = lit "ky".
Proof. reflexivity. Qed.

(** *** What [handleLocationSearch] and the timer change *)

Lemma searched_handleLocationSearch t query s :
  searched (handleLocationSearch t query s) = searched s ++ [(t, query)].
Proof.
  unfold handleLocationSearch.
  destruct (List.length query <? 3)%nat; reflexivity.
Qed.


Lemma selectedLocation_handleLocationSearch t query s :
  selectedLocation (handleLocationSearch t query s) = selectedLocation s.
Proof.
  unfold handleLocationSearch.
  destruct (List.length query <? 3)%nat; reflexivity.
Qed.

Lemma task_early func d t s due :
  timeoutId s = Some due -> t < due -> task (debounce func d) t s = s.
Proof.
  intros Hs Ht. cbn [task debounce]. rewrite Hs.
  destruct (Z.leb_spec due t); [lia | reflexivity].
Qed.

Lemma task_due func d t s due :
  timeoutId s = Some due -> due <= t ->
  task (debounce func d) t s = func due (with_timeoutId None s).
Proof.
  intros Hs Ht. cbn [task debounce]. rewrite Hs.
  destruct (Z.leb_spec due t); [reflexivity | lia].
Qed.

Lemma task_idle func d t s :
  timeoutId s = None -> task (debounce func d) t s = s.
Proof. intros Hs. cbn [task debounce]. rewrite Hs. reflexivity. Qed.

Lemma task_quiet func d t s : quiet s t -> task (debounce func d) t s = s.
Proof.
  intros Hq. destruct (timeoutId s) as [due|] eqn:Hs.
  - apply (task_early func d t s due Hs). apply Hq. exact Hs.
  - apply task_idle. exact Hs.
Qed.

Lemma last_cons {A : Type} (a d : A) (l : list A) :
  last (a :: l) d = last l a.
Proof.
  revert a d. induction l as [|b l IH]; intros a d; [reflexivity|].
  change (last (a :: b :: l) d) with (last (b :: l) d).
  rewrite (IH b d), (IH b a). reflexivity.
Qed.

Lemma remove_nth_last {A : Type} (l : list A) (a : A) :
  remove_nth (List.length l) (l ++ [a]) = l.
Proof.
  induction l as [|b l IH]; [reflexivity|].
  cbn [List.length app remove_nth]. rewrite IH. reflexivity.
Qed.

(** *** Debounce *)

(** While a burst is typed nothing runs: the timer is moved to [delay]
    after the latest keystroke and the box holds its value. *)
Lemma run_typing parseFloat keys : forall s t v,
  timeoutId s = Some (t + delay) ->
  input_value s = v ->
  burst t keys ->
  let s' := run parseFloat s (typing keys) in
  timeoutId s' = Some (fst (last keys (t, v)) + delay) /\
  input_value s' = snd (last keys (t, v)) /\
  searched s' = searched s /\
  fetched s' = fetched s /\
  selectedLocation s' = selectedLocation s.
Proof.
  induction keys as [|[t' v'] keys IH]; intros s t v Ht Hv Hb.
  - cbn. auto.
  - destruct Hb as [Hgap Hb].
    assert (E : step parseFloat s (t', Input v') = on_input t' v' s).
    { unfold step, input_listener. cbn [fst snd].
      rewrite (task_early listener delay t' s (t + delay) Ht) by lia.
      reflexivity. }
    cbn [typing map run fold_left fst snd]. rewrite E, last_cons.
    exact (IH (on_input t' v' s) t' v' eq_refl eq_refl Hb).
Qed.

(** C7.  A burst of keystrokes, each less than 300 ms after the one
    before, leads to exactly one call of the search: none before the
    box has been quiet for 300 ms, and from then on the single call made
    at that moment with the value of the last keystroke. *)
Theorem debounce_burst_one_search parseFloat s t v keys T :
  quiet s t ->
  burst t keys ->
  let final := last keys (t, v) in
  let s' := wait T (run parseFloat s (typing ((t, v) :: keys))) in
  (T < fst final + delay -> searched s' = searched s) /\
  (fst final + delay <= T ->
   searched s' = searched s ++ [(fst final + delay, snd final)]).
Proof.
  intros Hq Hb final s'.
  assert (E : step parseFloat s (t, Input v) = on_input t v s).
  { unfold step, input_listener. cbn [fst snd].
    rewrite (task_quiet listener delay t s Hq). reflexivity. }
  subst s'. cbn [typing map run fold_left fst snd]. rewrite E.
  destruct (run_typing parseFloat keys (on_input t v s) t v
              eq_refl eq_refl Hb) as [Ht [Hv [Hs _]]].
  fold final in Ht, Hv.
  change (fold_left (step parseFloat)
            (map (fun k => (fst k, Input (snd k))) keys) (on_input t v s))
    with (run parseFloat (on_input t v s) (typing keys)).
  set (s1 := run parseFloat (on_input t v s) (typing keys)) in *.
  change (searched (on_input t v s)) with (searched s) in Hs.
  unfold wait, input_listener. split; intros HT.
  - rewrite (task_early listener delay T s1 _ Ht) by lia. exact Hs.
  - rewrite (task_due listener delay T s1 _ Ht) by lia.
    unfold listener. rewrite searched_handleLocationSearch.
    cbn [with_selectedLocation with_timeoutId input_value searched].
    rewrite Hs, Hv. reflexivity.
Qed.

Lemma debounce_burst_one_search_witness :
  searched (wait 1000
              (run (fun _ => NaN) initial
                 (typing [(0, lit "k"); (120, lit "ky"); (250, lit "kyo")])))
  = [(550, lit "kyo")].
Proof.
  apply (debounce_burst_one_search (fun _ => NaN) initial 0 (lit "k")
           [(120, lit "ky"); (250, lit "kyo")] 1000).
  - intros due H. discriminate H.
  - cbn. unfold delay. lia.
  - cbn. unfold delay. lia.
Defined.

(** *** The outcome of a search *)

(** C8.  A search (a query of 3 code units or more) sends one request.
    When it answers with zero candidates the list is emptied and hidden
    and no error note is shown; when the request fails (no response, a
    response that is not ok, a body that is not the expected JSON) the
    fixed note "Could not fetch results." takes the place of the
    candidates and is shown.  In both cases no further request is sent and
    no timer is set. *)
Theorem search_empty_or_failed s t query :
  (3 <= List.length query)%nat ->
  let req := {| q := query; limit := 5 |} in
  let s1 := handleLocationSearch t query s in
  let i := List.length (in_flight s) in
  fetched s1 = fetched s ++ [req] /\
  nth_error (in_flight s1) i = Some req /\
  (let s2 := on_response i (Json []) s1 in
   results s2 = NoContent /\ hidden s2 = true /\
   console s2 = console s /\
   fetched s2 = fetched s ++ [req] /\ in_flight s2 = in_flight s /\
   timeoutId s2 = timeoutId s) /\
  (forall o : Outcome,
      failed o = true ->
      let s2 := on_response i o s1 in
      results s2 = ErrorNote /\ hidden s2 = false /\
      results_text (results s2) = lit "Could not fetch results." /\
      console s2 = console s ++ [LogFetchError] /\
      fetched s2 = fetched s ++ [req] /\ in_flight s2 = in_flight s /\
      timeoutId s2 = timeoutId s).
Proof.
  intros Hlen req s1 i.
  assert (E1 : s1 = fetch req (note_search t query s)).
  { subst s1. unfold handleLocationSearch.
    destruct (Nat.ltb_spec (List.length query) 3); [lia | reflexivity]. }
  assert (Hnth : nth_error (in_flight s1) i = Some req).
  { rewrite E1. cbn [fetch in_flight note_search]. subst i.
    rewrite nth_error_app2 by lia. rewrite Nat.sub_diag. reflexivity. }
  assert (Hrm : remove_nth i (in_flight s1) = in_flight s).
  { rewrite E1. cbn [fetch in_flight note_search]. subst i.
    apply remove_nth_last. }
  split; [rewrite E1; reflexivity|].
  split; [exact Hnth|].
  split.
  - cbv zeta. unfold on_response. rewrite Hnth, Hrm.
    rewrite E1. cbn. auto 10.
  - intros o Ho. cbv zeta. unfold on_response. rewrite Hnth, Hrm.
    rewrite E1.
    destruct o as [| st | | data]; try discriminate Ho; cbn; auto 10.
Qed.

Lemma search_empty_or_failed_witness :
  let s1 := handleLocationSearch 300 (lit "kyo") initial in
  results (on_response 0 (Json []) s1) = NoContent /\
  hidden (on_response 0 (Json []) s1) = true /\
  results (on_response 0 (NotOk 503) s1) = ErrorNote /\
  hidden (on_response 0 (NotOk 503) s1) = false /\
  fetched (on_response 0 (NotOk 503) s1) = [{| q := lit "kyo"; limit := 5 |}].
Proof.
  destruct (search_empty_or_failed initial 300 (lit "kyo") ltac:(cbn; lia))
    as [_ [_ [He Hf]]].
  destruct He as [He1 [He2 _]].
  destruct (Hf (NotOk 503) eq_refl) as [Hf1 [Hf2 [_ [_ [Hf4 _]]]]].
  cbv zeta. repeat split; assumption.
Defined.

(** *** The length gate *)




(** *** The held selection *)

(** Once the box has been quiet for [delay], the selection is gone and
    the button asks for one. *)
Lemma press_after_quiet parseFloat s t v T :
  t + delay <= T ->
  let s' := step parseFloat (on_input t v s) (T, Click OnButton) in
  selectedLocation s' = None /\
  message s' = lit "Please type a location and select it from the list." /\
  text_red s' = true /\ text_green s' = false.
Proof.
  intros HT. cbv zeta. unfold step, input_listener. cbn [fst snd].
  rewrite (task_due listener delay T (on_input t v s) (t + delay) eq_refl HT).
  set (s1 := listener (t + delay) (with_timeoutId None (on_input t v s))).
  assert (Hsel : selectedLocation s1 = None).
  { unfold s1, listener. rewrite selectedLocation_handleLocationSearch.
    reflexivity. }
  unfold on_click, generate.
  change (selectedLocation (with_message [] false false s1))
    with (selectedLocation s1).
  rewrite Hsel. cbn. auto.
Qed.

(** Before that, the keystroke has changed the box only: a selection made
    earlier is still held and the button reports on it. *)
Lemma press_within_delay parseFloat s t v T l :
  selectedLocation s = Some l ->
  T < t + delay ->
  let s' := step parseFloat (on_input t v s) (T, Click OnButton) in
  input_value s' = v /\
  selectedLocation s' = Some l /\
  message s'
  = lit "Generating report for: " ++ name l ++ lit " (Lat: "
      ++ Number_toFixed (lat l) 4 ++ lit ", Lon: "
      ++ Number_toFixed (lon l) 4 ++ lit ")" /\
  text_red s' = false /\ text_green s' = true.
Proof.
  intros Hl HT. cbv zeta. unfold step, input_listener. cbn [fst snd].
  rewrite (task_early listener delay T (on_input t v s) (t + delay) eq_refl HT).
  unfold on_click, generate.
  change (selectedLocation (with_message [] false false (on_input t v s)))
    with (selectedLocation s).
  rewrite Hl. repeat split; try reflexivity. exact Hl.
Qed.

(** C6, on the script.  Kyoto is selected, one more character is typed at
    time 2000 and the button is pressed.  Pressed at 2100, inside the
    debounce window, the script still holds the selection and reports on
    Kyoto although the box reads otherwise; pressed at 2300 it asks for a
    selection. *)
Theorem keystroke_clears_selection_late (parseFloat : jsstring -> Number) :
  let picked := {| name := lit "Kyoto, Japan";
                   lat := parseFloat (lit "35.0116");
                   lon := parseFloat (lit "135.7681") |} in
  let early := run parseFloat initial (session 2100) in
  let late := run parseFloat initial (session 2300) in
  input_value early = lit "Kyoto, Japanx" /\
  selectedLocation early = Some picked /\
  text_green early = true /\ text_red early = false /\
  message early
  = lit "Generating report for: Kyoto, Japan (Lat: "
      ++ Number_toFixed (parseFloat (lit "35.0116")) 4 ++ lit ", Lon: "
      ++ Number_toFixed (parseFloat (lit "135.7681")) 4 ++ lit ")" /\
  selectedLocation late = None /\
  text_red late = true /\ text_green late = false /\
  message late = lit "Please type a location and select it from the list.".
Proof.
  cbv zeta. repeat split; reflexivity.
Qed.

(** The same delay loses a selection made inside the window: the timer of
    the earlier keystroke clears it afterwards. *)
Example selection_inside_window_is_lost (parseFloat : jsstring -> Number) :
  selectedLocation (run parseFloat initial (firstn 4 late_pick)) <> None /\
  selectedLocation (run parseFloat initial late_pick) = None /\
  text_red (run parseFloat initial late_pick) = true.
Proof.
  split; [discriminate|]. split; reflexivity.
Qed.

End SearchFacts.

(** ** Properties of the plain button script *)

Module PlainFacts.
Import JS Plain.

(** The plain variant takes the typed text as it is, and asks for a
    location only when the text is empty or white space. *)
Lemma plain_accepts_typed_text :
  text_green (pressed (typed (lit "Kyoto") blank)) = true /\
  message (pressed (typed (lit "Kyoto") blank))
  = lit "Generating report for: Kyoto..." /\
  text_red (pressed (typed (lit "   ") blank)) = true /\
  message (pressed (typed (lit "   ") blank))
  = lit "Please enter a location first.".
Proof. repeat split; reflexivity. Qed.

End PlainFacts.


(** ** More properties of the built-ins *)

Module JSMore.
Import JS.

Lemma trimStart_nil s : trimStart s = [] <-> forallb is_space s = true.
Proof.
  induction s as [|u s IH]; cbn [trimStart forallb].
  - split; reflexivity.
  - destruct (is_space u); cbn [andb].
    + exact IH.
    + split; discriminate.
Qed.

Lemma forallb_rev {A : Type} (P : A -> bool) (l : list A) :
  forallb P (rev l) = forallb P l.
Proof.
  induction l as [|a l IH]; [reflexivity|].
  cbn [rev forallb]. rewrite forallb_app, IH. cbn [forallb].
  rewrite andb_true_r. apply andb_comm.
Qed.

(** What [trimStart] keeps begins with a code unit that is no space. *)
Lemma trimStart_head s u s' :
  trimStart s = u :: s' -> is_space u = false.
Proof.
  induction s as [|a s IH]; cbn [trimStart]; [discriminate|].
  destruct (is_space a) eqn:Ha; [exact IH|].
  intros E. injection E as <- _. exact Ha.
Qed.

(** A string trims to the empty string exactly when it is made of white
    space. *)
Lemma trim_nil s : trim s = [] <-> forallb is_space s = true.
Proof.
  unfold trim. split.
  - intros H. apply (f_equal (@rev Z)) in H. rewrite rev_involutive in H.
    cbn [rev] in H. apply trimStart_nil in H. rewrite forallb_rev in H.
    destruct (trimStart s) as [|u s'] eqn:E.
    + apply trimStart_nil. exact E.
    + apply trimStart_head in E. cbn [forallb] in H. rewrite E in H.
      discriminate H.
  - intros H. apply trimStart_nil in H. rewrite H. reflexivity.
Qed.

End JSMore.

(** ** More properties of the report generator *)

Module GeneratorMore.
Import JS JSFacts Generator GeneratorFacts Notions Render.

(** *** The hash *)

Lemma fold_hash_congr seed : forall h h',
  (4294967296 | h - h') ->
  (4294967296 | fold_left hash_step seed h
                - fold_left (fun a c => 31 * a + c) seed h').
Proof.
  induction seed as [|c seed IH]; intros h h' Hd; cbn [fold_left].
  - exact Hd.
  - apply IH.
    pose proof (hash_step_congr h c) as Hs.
    apply Z.mod_divide in Hs; [|discriminate].
    destruct Hs as [a Ha], Hd as [b Hb].
    exists (a + 31 * b). lia.
Qed.

Lemma ToInt32_of_congr x y :
  (4294967296 | x - y) -> ToInt32 x = ToInt32 y.
Proof.
  intros [k Hk]. unfold ToInt32.
  replace x with (y + k * 4294967296) by lia.
  rewrite Z.mod_add by discriminate. reflexivity.
Qed.

(** X1.  Modulo 2^32 the loop of [pseudoRandom] computes the polynomial
    hash [hash * 31 + c] of the code units: the two differ by a multiple
    of 2^32 and have the same 32-bit reduction. *)
Theorem hash_of_polynomial seed :
  (hash_of seed - poly31 seed) mod 4294967296 = 0 /\
  ToInt32 (hash_of seed) = ToInt32 (poly31 seed).
Proof.
  assert (H : (4294967296 | hash_of seed - poly31 seed)).
  { apply fold_hash_congr. exists 0. reflexivity. }
  split.
  - apply Z.mod_divide; [discriminate | exact H].
  - apply ToInt32_of_congr. exact H.
Qed.

(** X2.  The value handed to [Math.sin] is not reduced to 32 bits, but for
    a seed of [n] code units its magnitude is at most [n * (2^31 + 2^16)];
    up to 2^21 code units it stays below 2^53. *)
Theorem hash_of_magnitude seed :
  code_units seed ->
  Z.abs (hash_of seed) <= Z.of_nat (List.length seed) * 2147549184 /\
  (Z.of_nat (List.length seed) <= 2097152 ->
   Z.abs (hash_of seed) < 9007199254740992).
Proof.
  intros Hs. pose proof (hash_of_bound seed Hs) as Hb.
  split; [exact Hb|]. intros Hn. lia.
Qed.

Lemma hash_of_magnitude_witness :
  Z.abs (hash_of (lit "Kyoto0.3")) <= 8 * 2147549184 /\
  2147483648 <= Z.abs (hash_of (lit "Kyoto0.3")).
Proof.
  split.
  - apply (proj1 (hash_of_magnitude (lit "Kyoto0.3")
                    ltac:(repeat constructor; lia))).
  - vm_compute. discriminate.
Defined.

(** *** Floors *)

Lemma Zfloor_ub (b : Z) (x : R) : (x < IZR b + 1)%R -> Zfloor x <= b.
Proof.
  intros H. pose proof (Zfloor_bound x) as [Hlo _].
  assert (Hlt : (IZR (Zfloor x) < IZR (b + 1))%R)
    by (rewrite plus_IZR; lra).
  apply lt_IZR in Hlt. lia.
Qed.

Lemma Zfloor_between (x : R) (lo hi : Z) :
  (IZR lo <= x < IZR hi)%R -> lo <= Zfloor x < hi.
Proof.
  intros [Hlo Hhi]. split; [apply Zfloor_lub; exact Hlo|].
  assert (H : Zfloor x <= hi - 1)
    by (apply Zfloor_ub; rewrite minus_IZR; lra).
  lia.
Qed.

Lemma index_conditions k :
  0 <= k < 4 -> exists cnd, index conditions k = Some cnd /\ In cnd conditions.
Proof.
  intros Hk.
  assert (Hc : k = 0 \/ k = 1 \/ k = 2 \/ k = 3) by lia.
  destruct Hc as [-> | [-> | [-> | ->]]];
    (eexists; split; [reflexivity|]); cbn; auto 10.
Qed.

Lemma index_compass k :
  0 <= k < 8 -> exists dir, index compass k = Some dir /\ In dir compass.
Proof.
  intros Hk.
  assert (Hc : k = 0 \/ k = 1 \/ k = 2 \/ k = 3 \/ k = 4 \/ k = 5 \/ k = 6
               \/ k = 7) by lia.
  repeat (destruct Hc as [-> | Hc]); [.. | subst k];
    (eexists; split; [reflexivity|]); cbn; auto 10.
Qed.

(** *** The current conditions *)

(** X3.  The temperature lies in [15, 35); the felt temperature is within
    2 degrees of it, the dew point at most 10 degrees below it and never
    above it; wind speed lies in [0, 30) and visibility in [5, 20). *)
Theorem current_temperatures host loc c :
  let cur := current (report host loc c) in
  15 <= Current.temp cur < 35 /\
  Current.temp cur - 2 <= Current.feelsLike cur <= Current.temp cur + 2 /\
  Current.temp cur - 10 <= Current.dewPoint cur <= Current.temp cur /\
  0 <= Current.windSpeed cur < 30 /\
  5 <= Current.visibility cur < 20.
Proof.
  cbv zeta. rewrite current_closed.
  cbn [Current.temp Current.feelsLike Current.dewPoint Current.windSpeed
       Current.visibility].
  pose proof (draw_range host loc c 0) as H0.
  pose proof (draw_range host loc c 5) as H5.
  pose proof (draw_range host loc c 12) as H12.
  set (base := (15 + draw host loc c 0 * 20)%R).
  pose proof (Zfloor_bound base) as Hb.
  assert (Hbase : (15 <= base < 35)%R) by (subst base; lra).
  repeat split.
  - apply Zfloor_lub. lra.
  - assert (H : Zfloor base <= 34) by (apply Zfloor_ub; lra). lia.
  - apply Zfloor_lub. rewrite minus_IZR. lra.
  - apply Zfloor_ub. rewrite plus_IZR. lra.
  - apply Zfloor_lub. rewrite minus_IZR. lra.
  - apply Zfloor_ub. lra.
  - apply (floor_draw _ 30 (draw_range host loc c 7) eq_refl).
  - apply (floor_draw _ 30 (draw_range host loc c 7) eq_refl).
  - apply (floor_scaled _ 5 15 (draw_range host loc c 10) eq_refl).
  - apply (floor_scaled _ 5 15 (draw_range host loc c 10) eq_refl).
Qed.

(** X4.  No field of a report is [undefined]: the current condition and
    the condition of every forecast day are among the four conditions, and
    the wind direction is one of the eight compass points. *)
Theorem report_fields_defined host loc c :
  (exists cnd, Current.condition (current (report host loc c)) = Some cnd /\
               In cnd conditions) /\
  (exists dir, Current.windDir (current (report host loc c)) = Some dir /\
               In dir compass) /\
  Forall (fun f => exists cnd, condition f = Some cnd /\ In cnd conditions)
         (forecast (report host loc c)).
Proof.
  split; [|split].
  - rewrite current_closed. cbn [Current.condition].
    apply index_conditions.
    apply (floor_draw _ 4 (draw_range host loc c 1) eq_refl).
  - rewrite current_closed. cbn [Current.windDir].
    apply index_compass.
    apply (floor_draw _ 8 (draw_range host loc c 8) eq_refl).
  - rewrite forecast_closed. apply Forall_forall. intros f Hf.
    apply in_map_iff in Hf. destruct Hf as [i [<- _]].
    cbn [forecast_entry condition].
    apply index_conditions.
    apply (floor_draw _ 4 (pseudoRandom_range _) eq_refl).
Qed.

(** *** The forecast days *)

(** The low and the high of a day, from a base temperature of [15, 35)
    and a draw of [0, 1). *)
Lemma low_high_bounds (base d : R) :
  (15 <= base < 35)%R -> (0 <= d < 1)%R ->
  let low := Zfloor (base - 5 - d * 5) in
  let high := Zfloor (base + d * 5) in
  5 <= low < 30 /\ 15 <= high < 40 /\
  low + 5 <= high <= low + 15 /\
  low + 5 <= Zfloor base <= high /\
  3 * high - low <= 95.
Proof.
  intros Hbase Hd low high.
  pose proof (Zfloor_bound base) as Hb.
  pose proof (Zfloor_bound (base - 5 - d * 5)) as Hl.
  pose proof (Zfloor_bound (base + d * 5)) as Hh.
  fold low in Hl. fold high in Hh.
  pose proof (Zfloor_between (base - 5 - d * 5) 5 30 ltac:(lra)) as Rl.
  pose proof (Zfloor_between (base + d * 5) 15 40 ltac:(lra)) as Rh.
  fold low in Rl. fold high in Rh.
  assert (H1 : high <= low + 15).
  { apply Zfloor_ub. rewrite plus_IZR. lra. }
  assert (H2 : low + 5 <= high).
  { subst low high. rewrite <- Zfloor_addz. apply Zfloor_le. lra. }
  assert (H3 : low + 5 <= Zfloor base).
  { assert (H : low <= Zfloor base - 5)
      by (apply Zfloor_ub; rewrite minus_IZR; lra).
    lia. }
  assert (H4 : Zfloor base <= high) by (apply Zfloor_le; lra).
  assert (H5 : (IZR (3 * high - low) < IZR 96)%R)
    by (rewrite minus_IZR, mult_IZR; lra).
  apply lt_IZR in H5. lia.
Qed.

(** X5.  On every forecast day the low lies in [5, 30), the high in
    [15, 40), the high is at most 15 above the low, precipitation lies in
    [0, 100), and the current temperature lies between the low plus 5 and
    the high. *)
Theorem forecast_ranges host loc c :
  Forall (fun f =>
            5 <= lowTemp f < 30 /\ 15 <= highTemp f < 40 /\
            highTemp f - lowTemp f <= 15 /\
            0 <= precipitation f < 100 /\
            lowTemp f + 5 <= Current.temp (current (report host loc c))
              <= highTemp f)
         (forecast (report host loc c)).
Proof.
  rewrite forecast_closed, current_closed. cbn [Current.temp].
  apply Forall_forall. intros f Hf.
  apply in_map_iff in Hf. destruct Hf as [i [<- _]].
  cbn [forecast_entry lowTemp highTemp precipitation].
  pose proof (draw_range host loc c 0) as H0.
  pose proof (pseudoRandom_range (loc ++ ToString (Z.of_nat i))) as Hd.
  fold (dayRng loc i) in Hd.
  pose proof (low_high_bounds (15 + draw host loc c 0 * 20) (dayRng loc i)
                ltac:(lra) Hd) as Hlh.
  cbv zeta in Hlh.
  pose proof (floor_draw (dayRng loc i) 100 Hd eq_refl) as Rp.
  replace (dayRng loc i * IZR 100)%R with (dayRng loc i * 100)%R in Rp
    by reflexivity.
  lia.
Qed.

(** X6.  The condition of a forecast day is determined by its
    precipitation figure: Sunny below 25, Cloudy from 25, Rainy from 50,
    Partly Cloudy from 75. *)
Theorem forecast_condition_of_precipitation host loc c :
  Forall (fun f =>
            condition f
            = Some (condition_of_precipitation (precipitation f)))
         (forecast (report host loc c)).
Proof.
  rewrite forecast_closed. apply Forall_forall. intros f Hf.
  apply in_map_iff in Hf. destruct Hf as [i [<- _]].
  cbn [forecast_entry condition precipitation].
  pose proof (pseudoRandom_range (loc ++ ToString (Z.of_nat i))) as Hd.
  fold (dayRng loc i) in Hd. set (d := dayRng loc i) in *.
  pose proof (floor_draw d 100 Hd eq_refl) as Rp.
  replace (d * IZR 100)%R with (d * 100)%R in Rp by reflexivity.
  pose proof (Zfloor_bound (d * 100)) as Hp.
  set (p := Zfloor (d * 100)) in *.
  assert (Hk : Zfloor (d * 4) = p / 25).
  { apply Zfloor_eq.
    pose proof (Z.div_mod p 25 ltac:(discriminate)) as Hdm.
    pose proof (Z.mod_pos_bound p 25 eq_refl) as Hm.
    assert (H1 : (IZR (25 * (p / 25)) <= IZR p)%R) by (apply IZR_le; lia).
    assert (H2 : (IZR p + 1 <= IZR (25 * (p / 25) + 25))%R)
      by (rewrite <- (plus_IZR p 1); apply IZR_le; lia).
    rewrite plus_IZR, mult_IZR in H2. rewrite mult_IZR in H1. lra. }
  rewrite Hk. unfold condition_of_precipitation.
  assert (Hq : 0 <= p / 25 < 4)
    by (split; [apply Z.div_pos; lia | apply Z.div_lt_upper_bound; lia]).
  assert (Hc : p / 25 = 0 \/ p / 25 = 1 \/ p / 25 = 2 \/ p / 25 = 3) by lia.
  pose proof (Z.div_mod p 25 ltac:(discriminate)) as Hdm.
  pose proof (Z.mod_pos_bound p 25 eq_refl) as Hm.
  repeat match goal with
         | |- context [?a <? ?b] => destruct (Z.ltb_spec a b)
         end;
    destruct Hc as [E|[E|[E|E]]]; rewrite E in *; try lia; reflexivity.
Qed.

(** X7.  The temperature bar of a forecast row is never clamped and never
    leaves its track: the margin is twice the low, the width three times
    the spread, and together they stay below 96 per cent. *)
Theorem forecast_bar_fits host loc c :
  Forall (fun f =>
            bar_marginLeft f = 2 * lowTemp f /\
            bar_width f = 3 * (highTemp f - lowTemp f) /\
            10 <= bar_marginLeft f /\ 15 <= bar_width f <= 45 /\
            bar_marginLeft f + bar_width f <= 95)
         (forecast (report host loc c)).
Proof.
  rewrite forecast_closed. apply Forall_forall. intros f Hf.
  apply in_map_iff in Hf. destruct Hf as [i [<- _]].
  unfold bar_marginLeft, bar_width.
  cbn [forecast_entry lowTemp highTemp].
  pose proof (draw_range host loc c 0) as H0.
  pose proof (pseudoRandom_range (loc ++ ToString (Z.of_nat i))) as Hd.
  fold (dayRng loc i) in Hd.
  pose proof (low_high_bounds (15 + draw host loc c 0 * 20) (dayRng loc i)
                ltac:(lra) Hd) as Hlh.
  cbv zeta in Hlh. lia.
Qed.

(** *** The report identifier *)

Lemma dig_cases a rest :
  (a < 10)%N ->
  Decimal.nb_digits (dig a rest) = S (Decimal.nb_digits rest) /\
  DecimalPos.Unsigned.of_lu (dig a rest)
  = (a + 10 * DecimalPos.Unsigned.of_lu rest)%N.
Proof.
  intros Ha.
  assert (Hc : (a = 0 \/ a = 1 \/ a = 2 \/ a = 3 \/ a = 4 \/ a = 5 \/ a = 6
                \/ a = 7 \/ a = 8 \/ a = 9)%N) by lia.
  repeat (destruct Hc as [-> | Hc]); [.. | subst a];
    (split; [reflexivity|]); unfold dig;
    cbn [N.to_nat Pos.to_nat Pos.iter_op Nat.add DecimalPos.Unsigned.of_lu];
    try reflexivity; lia.
Qed.

Lemma of_lu_little k : forall n,
  (n < 10 ^ N.of_nat k)%N -> DecimalPos.Unsigned.of_lu (little k n) = n.
Proof.
  induction k as [|k IH]; intros n Hn.
  - cbn in Hn. cbn. lia.
  - cbn [little].
    rewrite (proj2 (dig_cases _ _ (N.mod_lt n 10 ltac:(discriminate)))).
    rewrite IH.
    + pose proof (N.div_mod' n 10). lia.
    + rewrite Nnat.Nat2N.inj_succ, N.pow_succ_r' in Hn.
      apply N.Div0.div_lt_upper_bound. exact Hn.
Qed.

Lemma nb_digits_little k : forall n, Decimal.nb_digits (little k n) = k.
Proof.
  induction k as [|k IH]; intros n; [reflexivity|].
  cbn [little].
  rewrite (proj1 (dig_cases _ _ (N.mod_lt n 10 ltac:(discriminate)))).
  rewrite IH. reflexivity.
Qed.

(** A number below [10^(k+1)] is written with at most [k+1] digits. *)
Lemma to_uint_short k n :
  (n < 10 ^ N.of_nat (S k))%N ->
  (Decimal.nb_digits (N.to_uint n) <= S k)%nat.
Proof.
  intros Hn.
  assert (E : N.to_uint n = Decimal.unorm (Decimal.rev (little (S k) n))).
  { rewrite <- DecimalN.Unsigned.to_of. f_equal.
    change (N.of_uint (Decimal.rev (little (S k) n)))
      with (Pos.of_uint (Decimal.rev (little (S k) n))).
    rewrite DecimalPos.Unsigned.of_uint_alt, DecimalFacts.rev_rev.
    symmetry. apply of_lu_little. exact Hn. }
  rewrite E.
  etransitivity.
  - apply DecimalFacts.nb_digits_unorm.
    intros H. apply (f_equal Decimal.nb_digits) in H.
    rewrite DecimalFacts.nb_digits_rev, nb_digits_little in H.
    discriminate H.
  - rewrite DecimalFacts.nb_digits_rev, nb_digits_little. apply le_n.
Qed.

Lemma string_of_uint_digits d :
  forallb is_digit (lit (NilEmpty.string_of_uint d)) = true /\
  List.length (lit (NilEmpty.string_of_uint d)) = Decimal.nb_digits d.
Proof.
  induction d as [|d [IH1 IH2]|d [IH1 IH2]|d [IH1 IH2]|d [IH1 IH2]
                  |d [IH1 IH2]|d [IH1 IH2]|d [IH1 IH2]|d [IH1 IH2]
                  |d [IH1 IH2]|d [IH1 IH2]];
    [split; reflexivity|..];
    (split;
     [ change (forallb is_digit (lit (NilEmpty.string_of_uint d)) = true);
       exact IH1
     | cbn [NilEmpty.string_of_uint Decimal.nb_digits];
       unfold lit in *; cbn [list_ascii_of_string map List.length];
       rewrite IH2; reflexivity ]).
Qed.

(** [ToString] of a natural number below a million: at most six code
    units, all of them digits. *)
Lemma ToString_short n :
  0 <= n < 1000000 ->
  forallb is_digit (ToString n) = true /\
  (List.length (ToString n) <= 6)%nat.
Proof.
  intros Hn. unfold ToString.
  assert (E : Z.to_int n = Decimal.Pos (N.to_uint (Z.to_N n))).
  { destruct n as [|p|p]; [reflexivity | reflexivity | lia]. }
  rewrite E. cbn [NilZero.string_of_int].
  pose proof (to_uint_short 5 (Z.to_N n)
                ltac:(change (10 ^ N.of_nat 6)%N with 1000000%N; lia)) as Hs.
  destruct (N.to_uint (Z.to_N n)) as [|d|d|d|d|d|d|d|d|d|d];
    [split; [reflexivity | cbn; lia]|..];
    match goal with
    | |- context [NilZero.string_of_uint ?u] =>
        change (NilZero.string_of_uint u) with (NilEmpty.string_of_uint u);
        destruct (string_of_uint_digits u) as [H1 H2];
        split; [exact H1 | rewrite H2; exact Hs]
    end.
Qed.

Lemma padStart0_six s :
  forallb is_digit s = true -> (List.length s <= 6)%nat ->
  six_digits (padStart0 6 s) = true.
Proof.
  intros Hd Hl. unfold six_digits, padStart0.
  rewrite length_app, repeat_length, forallb_app, Hd, andb_true_r.
  apply andb_true_iff. split.
  - apply Nat.eqb_eq. lia.
  - apply forallb_forall. intros u Hu. apply repeat_spec in Hu. subst u.
    reflexivity.
Qed.

(** X8.  The report identifier is [RPT-] followed by exactly six decimal
    digits: ten code units in all. *)
Theorem reportId_format host loc c :
  exists digits : jsstring,
    reportId (report host loc c) = lit "RPT-" ++ digits /\
    six_digits digits = true /\
    List.length (reportId (report host loc c)) = 10%nat.
Proof.
  set (n := Zfloor (draw host loc c 4 * 1000000)).
  assert (Hn : 0 <= n < 1000000)
    by apply (floor_draw _ 1000000 (draw_range host loc c 4) eq_refl).
  assert (Hd : six_digits (padStart0 6 (ToString n)) = true).
  { destruct (ToString_short n Hn) as [H1 H2].
    apply padStart0_six; assumption. }
  exists (padStart0 6 (ToString n)).
  split; [reflexivity|]. split; [exact Hd|].
  change (reportId (report host loc c))
    with (lit "RPT-" ++ padStart0 6 (ToString n)).
  rewrite length_app.
  unfold six_digits in Hd. apply andb_true_iff in Hd. destruct Hd as [Hl _].
  apply Nat.eqb_eq in Hl. rewrite Hl. reflexivity.
Qed.

End GeneratorMore.

(** ** Properties of the component *)

Module AppFacts.
Import JS Generator GeneratorFacts JSMore App.

Lemma wait_no_timers host t s : timers s = [] -> wait host t s = s.
Proof.
  intros H. destruct s as [iv st d tm cl]. cbn in H. subst tm. reflexivity.
Qed.

Lemma wait_one_early host t s due v :
  timers s = [(due, v)] -> t < due -> wait host t s = s.
Proof.
  intros H Ht. destruct s as [iv st d tm cl]. cbn in H. subst tm.
  unfold wait. cbn [timers with_timers expire].
  destruct (Z.leb_spec due t); [lia | reflexivity].
Qed.

Lemma wait_one_due host t s due v :
  timers s = [(due, v)] -> due <= t ->
  wait host t s = finish host v (with_timers [] s).
Proof.
  intros H Ht. unfold wait. rewrite H. cbn [expire].
  destruct (Z.leb_spec due t); [reflexivity | lia].
Qed.

Lemma expire_inputValue host t l : forall s,
  inputValue (expire host t l s) = inputValue s.
Proof.
  induction l as [|[due v] l IH]; intros s; cbn [expire]; [reflexivity|].
  destruct (due <=? t).
  - rewrite IH. reflexivity.
  - cbn [with_timers inputValue]. apply IH.
Qed.

Lemma wait_inputValue host t s : inputValue (wait host t s) = inputValue s.
Proof. unfold wait. rewrite expire_inputValue. reflexivity. Qed.

Lemma consistent_start c : consistent (start c).
Proof.
  unfold consistent. cbn. repeat split; try discriminate; auto.
  intros H. contradiction H. reflexivity.
Qed.

Lemma consistent_settled s :
  consistent s -> status s <> loading -> timers s = [].
Proof.
  intros [_ [_ [Hl _]]] Hs. destruct (timers s) as [|x l]; [reflexivity|].
  contradiction Hs. apply Hl. discriminate.
Qed.

Lemma consistent_onChange v s :
  consistent s -> consistent (onChange v s).
Proof. intros H. exact H. Qed.

Lemma consistent_handleGenerate t s :
  consistent s -> status s <> loading -> consistent (handleGenerate t s).
Proof.
  intros H Hs. pose proof (consistent_settled s H Hs) as Ht.
  unfold handleGenerate. destruct (trim (inputValue s)); [exact H|].
  unfold consistent. cbn [status data timers]. rewrite Ht. cbn.
  repeat split; try discriminate; auto.
Qed.

Lemma consistent_finish host v s :
  consistent (finish host v (with_timers [] s)).
Proof.
  unfold consistent. cbn. repeat split; try discriminate; auto.
  intros H. contradiction H. reflexivity.
Qed.

Lemma consistent_step host s te : consistent s -> consistent (step host s te).
Proof.
  intros H. destruct te as [t e]. unfold step. cbn [fst snd].
  assert (Hw : consistent (wait host t s)).
  { destruct (timers s) as [|[due v] l] eqn:Ht.
    - rewrite wait_no_timers by exact Ht. exact H.
    - destruct l as [|y l].
      + destruct (Z.le_gt_cases due t).
        * rewrite (wait_one_due host t s due v Ht) by assumption.
          apply consistent_finish.
        * rewrite (wait_one_early host t s due v Ht) by lia. exact H.
      + destruct H as [_ [_ [_ Hlen]]]. rewrite Ht in Hlen.
        cbn in Hlen. lia. }
  set (s1 := wait host t s) in *.
  destruct (status s1) eqn:Hs; [|exact Hw|].
  - destruct e; [apply consistent_onChange; exact Hw|].
    apply consistent_handleGenerate; [exact Hw|]. rewrite Hs. discriminate.
  - destruct e; [apply consistent_onChange; exact Hw|].
    apply consistent_handleGenerate; [exact Hw|]. rewrite Hs. discriminate.
Qed.

(** X9.  Whatever the user does and whenever, the page stays consistent:
    a report is at hand whenever the status is [success], none has been
    made while it is [idle], and a timer is pending exactly while it is
    [loading], never more than one. *)
Theorem page_stays_consistent host s trace :
  consistent s -> consistent (run host s trace).
Proof.
  revert s. induction trace as [|te trace IH]; intros s H; [exact H|].
  cbn [run fold_left]. apply IH. apply consistent_step. exact H.
Qed.

Lemma page_stays_consistent_witness :
  consistent
    (run host_a (start first_call)
       [(0, Change (lit "London")); (10, Submit); (20, Submit);
        (2000, Change (lit "Kyoto"))]).
Proof.
  apply (page_stays_consistent host_a (start first_call)).
  apply consistent_start.
Defined.

(** X10.  Submitting an input that is not blank, when no generation is
    under way, sets the status to [loading] and keeps the old report; for
    the next 1500 ms nothing the user does has any effect; after that the
    status is [success] and the report is the one generated for the input
    as it was typed, from the next thirteen random numbers and eight clock
    readings. *)
Theorem generation_completes host s t :
  consistent s -> status s <> loading -> trim (inputValue s) <> [] ->
  let s1 := step host s (t, Submit) in
  status s1 = loading /\ data s1 = data s /\
  inputValue s1 = inputValue s /\
  (forall T e, T < t + latency -> step host s1 (T, e) = s1) /\
  (forall T, t + latency <= T ->
     let s2 := wait host T s1 in
     status s2 = success /\
     data s2 = Some (report host (inputValue s) (calls s)) /\
     calls s2 = {| randoms := 13 + randoms (calls s);
                   dates := 8 + dates (calls s) |} /\
     timers s2 = [] /\ inputValue s2 = inputValue s).
Proof.
  intros H Hs Hin.
  pose proof (consistent_settled s H Hs) as Ht.
  assert (E : step host s (t, Submit)
              = {| inputValue := inputValue s; status := loading;
                   data := data s;
                   timers := [(t + latency, inputValue s)];
                   calls := calls s |}).
  { unfold step. cbn [fst snd]. rewrite wait_no_timers by exact Ht.
    unfold handleGenerate.
    destruct (trim (inputValue s)) eqn:Etr; [contradiction Hin; reflexivity|].
    rewrite Ht.
    destruct (status s); [reflexivity | contradiction Hs; reflexivity
                         | reflexivity]. }
  cbv zeta. rewrite E.
  set (s1 := {| inputValue := inputValue s; status := loading;
                data := data s;
                timers := [(t + latency, inputValue s)];
                calls := calls s |}).
  assert (Ht1 : timers s1 = [(t + latency, inputValue s)]) by reflexivity.
  split; [reflexivity|]. split; [reflexivity|]. split; [reflexivity|].
  split.
  - intros T e HT. unfold step. cbn [fst snd].
    rewrite (wait_one_early host T s1 _ _ Ht1 HT). reflexivity.
  - intros T HT. rewrite (wait_one_due host T s1 _ _ Ht1 HT).
    split; [reflexivity|]. split; [reflexivity|].
    split; [|split; reflexivity].
    cbn [finish calls with_timers s1]. apply calls_after.
Qed.

Lemma generation_completes_witness :
  let s1 := step host_a (onChange (lit "London") (start first_call))
              (10, Submit) in
  status s1 = loading /\
  status (wait host_a 1510 s1) = success /\
  data (wait host_a 1510 s1)
  = Some (report host_a (lit "London") first_call).
Proof.
  destruct (generation_completes host_a
              (onChange (lit "London") (start first_call)) 10)
    as [H1 [_ [_ [_ H5]]]].
  - apply consistent_onChange, consistent_start.
  - discriminate.
  - discriminate.
  - destruct (H5 1510) as [Ha [Hb _]]; [unfold latency; lia|].
    cbv zeta. repeat split; assumption.
Defined.

(** X11.  Submitting an input made of white space only (or empty) is the
    same as letting the time pass: no generation starts. *)
Theorem blank_submit_ignored host s t :
  forallb is_space (inputValue s) = true ->
  step host s (t, Submit) = wait host t s.
Proof.
  intros Hb. unfold step. cbn [fst snd].
  assert (Htr : trim (inputValue (wait host t s)) = []).
  { rewrite wait_inputValue. apply trim_nil. exact Hb. }
  unfold handleGenerate. rewrite Htr.
  destruct (status (wait host t s)); reflexivity.
Qed.

Lemma blank_submit_ignored_witness :
  step host_a (onChange (lit "  ") (start first_call)) (10, Submit)
  = wait host_a 10 (onChange (lit "  ") (start first_call)).
Proof.
  apply (blank_submit_ignored host_a). reflexivity.
Defined.

End AppFacts.

(** ** Properties of the runs of the autocomplete script *)

Module TraceFacts.
Import JS Search SearchFacts Traces.

(** *** What each handler leaves alone *)

Lemma task_cases t s :
  task input_listener t s = s \/
  exists due, timeoutId s = Some due /\ due <= t /\
              task input_listener t s = listener due (with_timeoutId None s).
Proof.
  unfold input_listener.
  destruct (timeoutId s) as [due|] eqn:Hs.
  - destruct (Z.le_gt_cases due t).
    + right. exists due. split; [reflexivity|]. split; [assumption|].
      apply task_due; assumption.
    + left. apply (task_early listener delay t s due Hs). lia.
  - left. apply task_idle. exact Hs.
Qed.

Lemma on_response_frame i o s :
  let s' := on_response i o s in
  input_value s' = input_value s /\
  selectedLocation s' = selectedLocation s /\
  timeoutId s' = timeoutId s /\
  fetched s' = fetched s /\ searched s' = searched s.
Proof.
  cbv zeta. unfold on_response.
  destruct (nth_error (in_flight s) i); [|auto].
  destruct o as [| st | | [|a data]]; cbn; auto.
Qed.

Lemma on_click_frame parseFloat target s :
  let s' := on_click parseFloat target s in
  timeoutId s' = timeoutId s /\
  fetched s' = fetched s /\ searched s' = searched s.
Proof.
  cbv zeta. destruct target as [| | k | |]; cbn [on_click]; auto.
  - unfold generate. cbn [with_message selectedLocation].
    destruct (selectedLocation s); cbn; auto.
  - destruct (results s) as [| |items]; auto.
    destruct (hidden s); auto.
    destruct (nth_error items k); cbn; auto.
Qed.

Lemma generate_frame s :
  input_value (generate s) = input_value s /\
  selectedLocation (generate s) = selectedLocation s /\
  timeoutId (generate s) = timeoutId s.
Proof.
  unfold generate. cbn [with_message selectedLocation].
  destruct (selectedLocation s) eqn:E; cbn; rewrite ?E; auto.
Qed.

Lemma never_shown_empty_hidden s : hidden s = true -> never_shown_empty s.
Proof. intros H Hv. rewrite H in Hv. discriminate Hv. Qed.

Lemma never_shown_empty_same s s' :
  hidden s' = hidden s -> results s' = results s ->
  never_shown_empty s -> never_shown_empty s'.
Proof. unfold never_shown_empty. intros -> ->. auto. Qed.

Lemma never_shown_empty_handleLocationSearch t query s :
  never_shown_empty s -> never_shown_empty (handleLocationSearch t query s).
Proof.
  intros H. unfold handleLocationSearch.
  destruct (List.length query <? 3)%nat.
  - apply never_shown_empty_hidden. reflexivity.
  - apply (never_shown_empty_same s); [reflexivity | reflexivity | exact H].
Qed.

Lemma never_shown_empty_step parseFloat s te :
  never_shown_empty s -> never_shown_empty (step parseFloat s te).
Proof.
  intros H. destruct te as [t e]. unfold step. cbn [fst snd].
  assert (Hw : never_shown_empty (task input_listener t s)).
  { destruct (task_cases t s) as [-> | [due [_ [_ ->]]]]; [exact H|].
    unfold listener. apply never_shown_empty_handleLocationSearch.
    apply (never_shown_empty_same s); [reflexivity | reflexivity | exact H]. }
  set (s1 := task input_listener t s) in *.
  destruct e as [v | target | i o].
  - apply (never_shown_empty_same s1); [reflexivity | reflexivity | exact Hw].
  - destruct target as [| | k | |]; cbn [on_click]; try exact Hw;
      try (apply never_shown_empty_hidden; reflexivity).
    destruct (results s1) as [| |items] eqn:Hr; try exact Hw.
    destruct (hidden s1) eqn:Hh; try exact Hw.
    destruct (nth_error items k); [|exact Hw].
    apply never_shown_empty_hidden. reflexivity.
  - unfold on_response.
    destruct (nth_error (in_flight s1) i); [|exact Hw].
    destruct o as [| st | | [|a data]]; cbn [settle displayResults];
      try (apply never_shown_empty_hidden; reflexivity);
      intros _; cbn; split; discriminate.
Qed.

(** X12.  The list of candidates is never on display with nothing in it:
    whenever it is visible it holds at least one candidate or the note of
    a failed search. *)
Theorem list_never_shown_empty parseFloat s trace :
  never_shown_empty s -> never_shown_empty (run parseFloat s trace).
Proof.
  revert s. induction trace as [|te trace IH]; intros s H; [exact H|].
  cbn [run fold_left]. apply IH. apply never_shown_empty_step. exact H.
Qed.

Lemma list_never_shown_empty_witness :
  never_shown_empty (run (fun _ => NaN) initial (session 2100)).
Proof.
  apply (list_never_shown_empty (fun _ => NaN) initial).
  apply never_shown_empty_hidden. reflexivity.
Defined.

Lemma box_shows_selection_step parseFloat s te :
  box_shows_selection s -> box_shows_selection (step parseFloat s te).
Proof.
  intros H. destruct te as [t e]. unfold step. cbn [fst snd].
  assert (Hw : box_shows_selection (task input_listener t s)).
  { destruct (task_cases t s) as [-> | [due [_ [_ ->]]]]; [exact H|].
    intros l Hl _. unfold listener in Hl.
    rewrite selectedLocation_handleLocationSearch in Hl. discriminate Hl. }
  set (s1 := task input_listener t s) in *.
  destruct e as [v | target | i o].
  - intros l _ Ht. discriminate Ht.
  - destruct target as [| | k | |]; cbn [on_click]; try exact Hw.
    + destruct (generate_frame s1) as [Gv [Gl Gt]].
      intros l Hl Ht.
      change (input_value (generate s1) = name l). rewrite Gv.
      apply (Hw l); [rewrite <- Gl; exact Hl | rewrite <- Gt; exact Ht].
    + destruct (results s1) as [| |items]; try exact Hw.
      destruct (hidden s1); try exact Hw.
      destruct (nth_error items k) as [cand|]; [|exact Hw].
      intros l Hl _. cbn in Hl. injection Hl as <-. reflexivity.
  - destruct (on_response_frame i o s1) as [Hv [Hl [Ht _]]].
    intros l Hl' Ht'. rewrite Hv. apply Hw; congruence.
Qed.

(** X13.  With a selection held and no keystroke waiting for its timer,
    the box reads the name of the selection: what the button then reports
    on is what the box shows. *)
Theorem box_always_shows_selection parseFloat s trace :
  box_shows_selection s -> box_shows_selection (run parseFloat s trace).
Proof.
  revert s. induction trace as [|te trace IH]; intros s H; [exact H|].
  cbn [run fold_left]. apply IH. apply box_shows_selection_step. exact H.
Qed.

Lemma box_always_shows_selection_witness :
  box_shows_selection (run (fun _ => NaN) initial (firstn 3 (session 0))).
Proof.
  apply (box_always_shows_selection (fun _ => NaN) initial).
  intros l Hl. discriminate Hl.
Defined.





(** *** The pace of the searches *)

Lemma spaced_snoc l x :
  spaced l -> (forall a, In a l -> a + delay <= x) -> spaced (l ++ [x]).
Proof.
  induction l as [|a l IH]; intros Hs Hx; [exact I|].
  destruct l as [|b l].
  - cbn. split; [apply Hx; left; reflexivity | exact I].
  - destruct Hs as [Hab Hs].
    change (a + delay <= b /\ spaced ((b :: l) ++ [x])).
    split; [exact Hab|].
    apply IH; [exact Hs|]. intros c Hc. apply Hx. right. exact Hc.
Qed.

Lemma timeoutId_handleLocationSearch t query s :
  timeoutId (handleLocationSearch t query s) = timeoutId s.
Proof.
  unfold handleLocationSearch.
  destruct (List.length query <? 3)%nat; reflexivity.
Qed.

Lemma paced_task s now t :
  paced s now -> now <= t -> paced (task input_listener t s) t.
Proof.
  intros [HA [HB HC]] Hnow.
  destruct (task_cases t s) as [-> | [due [Hd [Hle ->]]]].
  - split; [|split; [exact HB | exact HC]].
    intros t' v Hin. specialize (HA t' v Hin). lia.
  - unfold listener. split; [|split].
    + intros t' v. rewrite searched_handleLocationSearch.
      intros Hin. apply in_app_or in Hin. destruct Hin as [Hin | Hin].
      * specialize (HA t' v Hin). lia.
      * destruct Hin as [E | []]. injection E as <- _. exact Hle.
    + rewrite searched_handleLocationSearch, map_app.
      apply spaced_snoc; [exact HB|].
      intros a Ha. apply in_map_iff in Ha. destruct Ha as [[t' v] [<- Hin]].
      exact (HC due Hd t' v Hin).
    + rewrite timeoutId_handleLocationSearch. intros d Hsome.
      discriminate Hsome.
Qed.

Lemma paced_step parseFloat s now t e :
  paced s now -> now <= t -> paced (step parseFloat s (t, e)) t.
Proof.
  intros H Hnow. pose proof (paced_task s now t H Hnow) as Hw.
  unfold step. cbn [fst snd]. set (s1 := task input_listener t s) in *.
  destruct Hw as [HA [HB HC]].
  destruct e as [v | target | i o].
  - split; [exact HA | split; [exact HB|]].
    intros due Hd t' v' Hin. cbn in Hd. injection Hd as <-.
    specialize (HA t' v' Hin). lia.
  - destruct (on_click_frame parseFloat target s1) as [Ht [_ Hs]].
    unfold paced. rewrite Ht, Hs. auto.
  - destruct (on_response_frame i o s1) as [_ [_ [Ht [_ Hs]]]].
    unfold paced. rewrite Ht, Hs. auto.
Qed.

Lemma paced_run parseFloat trace : forall s now,
  paced s now -> chronological now trace ->
  exists final, paced (run parseFloat s trace) final.
Proof.
  induction trace as [|[t e] trace IH]; intros s now H Hc.
  - exists now. exact H.
  - destruct Hc as [Hnow Hc]. cbn [run fold_left].
    apply (IH _ t); [|exact Hc].
    apply (paced_step parseFloat s now t e H Hnow).
Qed.

(** X15.  Whatever the user does, in the order of time, two searches are
    never less than 300 ms apart: the times of the calls of
    [handleLocationSearch] increase by at least the debounce interval. *)
Theorem searches_are_paced parseFloat s now trace :
  paced s now -> chronological now trace ->
  spaced (map fst (searched (run parseFloat s trace))).
Proof.
  intros H Hc.
  destruct (paced_run parseFloat trace s now H Hc) as [final [_ [HB _]]].
  exact HB.
Qed.

Lemma searches_are_paced_witness :
  spaced (map fst (searched (run (fun _ => NaN) initial (session 2300)))).
Proof.
  apply (searches_are_paced (fun _ => NaN) initial 0 (session 2300)).
  - split; [|split].
    + intros t v [].
    + exact I.
    + intros due Hd. discriminate Hd.
  - cbn. lia.
Defined.

Lemma count_step parseFloat s te :
  (List.length (searched (step parseFloat s te))
   + pending (step parseFloat s te)
   <= List.length (searched s) + pending s
      + (if is_input te then 1 else 0))%nat.
Proof.
  destruct te as [t e]. unfold step. cbn [fst snd].
  assert (Hw : (List.length (searched (task input_listener t s))
                + pending (task input_listener t s)
                <= List.length (searched s) + pending s)%nat).
  { destruct (task_cases t s) as [-> | [due [Hd [_ ->]]]]; [lia|].
    unfold listener, pending.
    rewrite searched_handleLocationSearch, timeoutId_handleLocationSearch.
    rewrite length_app, Hd. cbn. lia. }
  set (s1 := task input_listener t s) in *.
  destruct e as [v | target | i o]; unfold is_input; cbn [snd].
  - change (searched (on_input t v s1)) with (searched s1).
    change (pending (on_input t v s1)) with 1%nat. lia.
  - destruct (on_click_frame parseFloat target s1) as [Ht [_ Hs]].
    unfold pending in *. rewrite Ht, Hs. lia.
  - destruct (on_response_frame i o s1) as [_ [_ [Ht [_ Hs]]]].
    unfold pending in *. rewrite Ht, Hs. lia.
Qed.

(** X16.  The script never searches more often than the user types: over
    any run, the searches made plus the one still pending number at most
    those before the run plus the keystrokes of the run. *)
Theorem searches_at_most_keystrokes parseFloat trace : forall s,
  (List.length (searched (run parseFloat s trace))
   + pending (run parseFloat s trace)
   <= List.length (searched s) + pending s
      + List.length (filter is_input trace))%nat.
Proof.
  induction trace as [|te trace IH]; intros s; cbn [run fold_left filter].
  - lia.
  - specialize (IH (step parseFloat s te)).
    pose proof (count_step parseFloat s te) as Hs.
    change (fold_left (step parseFloat) trace (step parseFloat s te))
      with (run parseFloat (step parseFloat s te) trace).
    destruct (is_input te); cbn [List.length]; lia.
Qed.

(** *** Responses out of order *)

(** X17.  Nothing ties a response to the latest search: when two searches
    are in flight and the answer to the older one arrives last, the list
    shows the candidates of the older query. *)
Theorem stale_response_wins s t1 q1 t2 q2 d1 d2 :
  in_flight s = [] ->
  (3 <= List.length q1)%nat -> (3 <= List.length q2)%nat -> d1 <> [] ->
  let s2 := handleLocationSearch t2 q2 (handleLocationSearch t1 q1 s) in
  let s3 := on_response 0 (Json d1) (on_response 1 (Json d2) s2) in
  in_flight s2 = [{| q := q1; limit := 5 |}; {| q := q2; limit := 5 |}] /\
  searched s3 = searched s ++ [(t1, q1); (t2, q2)] /\
  results s3 = Items d1 /\ hidden s3 = false /\ in_flight s3 = [].
Proof.
  intros Hf H1 H2 Hd.
  assert (E : handleLocationSearch t2 q2 (handleLocationSearch t1 q1 s)
              = fetch {| q := q2; limit := 5 |}
                  (note_search t2 q2
                     (fetch {| q := q1; limit := 5 |}
                        (note_search t1 q1 s)))).
  { unfold handleLocationSearch.
    destruct (Nat.ltb_spec (List.length q1) 3); [lia|].
    destruct (Nat.ltb_spec (List.length q2) 3); [lia|]. reflexivity. }
  cbv zeta. rewrite E. unfold on_response.
  cbn [fetch note_search in_flight]. rewrite Hf.
  cbn [app nth_error remove_nth].
  destruct d1 as [|a d1]; [contradiction Hd; reflexivity|].
  destruct d2 as [|b d2]; cbn; rewrite <- app_assoc; auto.
Qed.

Lemma stale_response_wins_witness :
  let s2 := handleLocationSearch 600 (lit "kyoto")
              (handleLocationSearch 300 (lit "kyo") initial) in
  results (on_response 0 (Json [kyoto]) (on_response 1 (Json []) s2))
  = Items [kyoto].
Proof.
  cbv zeta.
  apply (stale_response_wins initial 300 (lit "kyo") 600 (lit "kyoto")
           [kyoto] []).
  - reflexivity.
  - cbn. lia.
  - cbn. lia.
  - discriminate.
Defined.

(** *** Selecting and generating *)



End TraceFacts.

(** ** More properties of the plain button script *)

Module PlainMore.
Import JS JSMore Plain.

(** X19.  The plain script turns down exactly the inputs made of white
    space (the empty one among them); any other input is accepted and
    echoed as it was typed, surrounding spaces included. *)
Theorem plain_accepts_unless_blank v s :
  let s' := pressed (typed v s) in
  location s' = v /\
  text_red s' = forallb is_space v /\
  text_green s' = negb (forallb is_space v) /\
  message s'
  = (if forallb is_space v then lit "Please enter a location first."
     else lit "Generating report for: " ++ v ++ lit "...").
Proof.
  cbv zeta. unfold pressed. cbn [typed location].
  destruct (trim v) as [|u r] eqn:E.
  - apply trim_nil in E. rewrite E. cbn. auto.
  - assert (Hb : forallb is_space v = false).
    { destruct (forallb is_space v) eqn:Hb; [|reflexivity].
      apply trim_nil in Hb. rewrite Hb in E. discriminate E. }
    rewrite Hb. cbn. auto.
Qed.

End PlainMore.
